(** * The agenda iCalendar formatter of newsroom

    A shallow embedding of [newsroom/agenda/formatters/ical_formatter.py]:
    the Python values the formatter reads (JSON-like records coming from the
    agenda store), the exceptions its dictionary and sequence operations raise,
    and the three functions [get_rrule_kwargs], [guid] and
    [iCalFormatter.format_event] / [format_item], followed by the properties
    of the formatter. *)

From Stdlib Require Import String List ZArith DecimalString PrimFloat.
Import ListNotations.
Open Scope string_scope.
Open Scope list_scope.
Set Warnings "-register-all".

(** ** Python values and the operations the formatter uses *)

Module Py.

(** The values an agenda record is made of.  Dictionaries are keyed by
    strings and keep insertion order, as Python's do. *)
Inductive value : Type :=
| VNone
| VBool (b : bool)
| VInt (n : Z)
| VFloat (f : float)
| VStr (s : string)
| VDatetime (t : Z)
| VList (l : list value)
| VTuple (l : list value)
| VDict (d : list (string * value)).

(** The exceptions raised by the operations below. [KeyError] carries the
    missing key. *)
Inductive exn : Type :=
| KeyError (k : string)
| TypeError
| AttributeError.

Inductive result (A : Type) : Type :=
| Ok (a : A)
| Raise (e : exn).
Arguments Ok {A} a.
Arguments Raise {A} e.

Definition bind {A B} (c : result A) (k : A -> result B) : result B :=
  match c with
  | Ok a => k a
  | Raise e => Raise e
  end.

(** [try: body except KeyError: handler] *)
Definition try_except_KeyError {A} (body handler : result A) : result A :=
  match body with
  | Raise (KeyError _) => handler
  | r => r
  end.

Fixpoint lookup (k : string) (d : list (string * value)) : option value :=
  match d with
  | [] => None
  | (k', v) :: d' => if String.eqb k k' then Some v else lookup k d'
  end.

(** [d[k] = v] on a dictionary: an existing key keeps its position. *)
Fixpoint dict_set (k : string) (v : value) (d : list (string * value))
  : list (string * value) :=
  match d with
  | [] => [(k, v)]
  | (k', v') :: d' =>
      if String.eqb k k' then (k, v) :: d' else (k', v') :: dict_set k v d'
  end.

(** [o.get(k, default)]: only dictionaries have a [get] attribute. *)
Definition get (o : value) (k : string) (default : value) : result value :=
  match o with
  | VDict d => Ok (match lookup k d with Some v => v | None => default end)
  | _ => Raise AttributeError
  end.

(** [o[k]] with a string key [k]: a missing key of a dictionary is a
    [KeyError]; sequences want integer indices and the other values are not
    subscriptable, a [TypeError] either way. *)
Definition getitem (o : value) (k : string) : result value :=
  match o with
  | VDict d => match lookup k d with Some v => Ok v | None => Raise (KeyError k) end
  | _ => Raise TypeError
  end.

(** Truth value testing, as in [if o:] and [filter(None, ...)]. *)
Definition truthy (o : value) : bool :=
  match o with
  | VNone => false
  | VBool b => b
  | VInt n => negb (Z.eqb n 0)
  | VFloat f => negb (PrimFloat.eqb f 0%float)
  | VStr s => negb (String.eqb s "")
  | VDatetime _ => true
  | VList l | VTuple l => match l with [] => false | _ => true end
  | VDict d => match d with [] => false | _ => true end
  end.

Fixpoint chars (s : string) : list value :=
  match s with
  | EmptyString => []
  | String c s' => VStr (String c EmptyString) :: chars s'
  end.

(** The elements a [for x in o:] loop visits: the items of a list or tuple,
    the keys of a dictionary, the characters of a string; anything else is
    not iterable. *)
Definition iter (o : value) : result (list value) :=
  match o with
  | VList l | VTuple l => Ok l
  | VDict d => Ok (map (fun kv => VStr (fst kv)) d)
  | VStr s => Ok (chars s)
  | _ => Raise TypeError
  end.

(** [sep.join(items)]: every item has to be a string. *)
Fixpoint strings_of (items : list value) : result (list string) :=
  match items with
  | [] => Ok []
  | VStr s :: rest =>
      match strings_of rest with
      | Ok ss => Ok (s :: ss)
      | Raise e => Raise e
      end
  | _ :: _ => Raise TypeError
  end.

Definition join (sep : string) (items : list value) : result value :=
  match strings_of items with
  | Ok ss => Ok (VStr (String.concat sep ss))
  | Raise e => Raise e
  end.

End Py.
Import Py.

Notation "x <- c ;; k" := (bind c (fun x => k))
  (at level 61, c at next level, right associativity).

(** ** The calendar objects of the icalendar library

    A component records the properties added to it, in the order of the
    [add] calls; a calendar has header items and sub-components. *)

Definition component : Type := list (string * value).

Definition Event : component := [].

Definition add (event : component) (name : string) (v : value) : component :=
  event ++ [(name, v)].

Record calendar : Type := Calendar {
  items : list (string * value);
  subcomponents : list component
}.

Definition new_calendar : calendar := Calendar [] [].

Definition setitem (cal : calendar) (k : string) (v : value) : calendar :=
  Calendar (dict_set k v (items cal)) (subcomponents cal).

Definition add_component (cal : calendar) (c : component) : calendar :=
  Calendar (items cal) (subcomponents cal ++ [c]).

(** The body of a [for] loop run over the visited elements; an exception in
    one round leaves the loop. *)
Fixpoint for_each (body : value -> component -> result component)
  (l : list value) (event : component) : result component :=
  match l with
  | [] => Ok event
  | x :: l' => event' <- body x event ;; for_each body l' event'
  end.

(** ** ical_formatter.py *)

Definition get_rrule_kwargs (rrule : value) : result value :=
  f <- getitem rrule "frequency" ;;
  let kwargs := [("freq", f)] in
  c <- get rrule "count" VNone ;;
  kwargs <- (if truthy c
             then v <- getitem rrule "count" ;; Ok (dict_set "count" v kwargs)
             else Ok kwargs) ;;
  i <- get rrule "interval" VNone ;;
  kwargs <- (if truthy i
             then v <- getitem rrule "interval" ;; Ok (dict_set "interval" v kwargs)
             else Ok kwargs) ;;
  u <- get rrule "until" VNone ;;
  kwargs <- (if truthy u
             then v <- getitem rrule "until" ;; Ok (dict_set "until" v kwargs)
             else Ok kwargs) ;;
  Ok (VDict kwargs).

(** [item.get('guid', item.get('event', {}).get('guid', item.get('_id')))]:
    the defaults are arguments, evaluated before the call they are passed
    to. *)
Definition guid (item : value) : result value :=
  ev <- get item "event" (VDict []) ;;
  id <- get item "_id" VNone ;;
  inner <- get ev "guid" id ;;
  get item "guid" inner.

Definition VERSION : value := VStr "2.0".
Definition PRODID : value := VStr "Newshub".

Section Formatter.

(** Collaborators defined outside this file: [superdesk.utc.utcnow],
    [flask.url_for] with [media_id=..., _external=True],
    [newsroom.agenda.contacts.get_contact_name] and [get_contact_email],
    and the serializer [icalendar.Calendar.to_ical]. *)
Variable utcnow : value.
Variable url_for : string -> value -> value.
Variable get_contact_name : value -> value.
Variable get_contact_email : value -> value.
Variable bytes : Type.
Variable to_ical : calendar -> bytes.

(** [# description] *)
Definition format_description (item : value) (event : component)
  : result component :=
  n <- getitem item "name" ;;
  let event := add event "summary" n in
  d <- get item "definition_long" VNone ;;
  event <- (if truthy d
            then v <- getitem item "definition_long" ;; Ok (add event "description" v)
            else Ok event) ;;
  e <- get item "ednote" VNone ;;
  event <- (if truthy e
            then v <- getitem item "ednote" ;; Ok (add event "comment" v)
            else Ok event) ;;
  p <- get item "priority" VNone ;;
  if truthy p
  then v <- getitem item "priority" ;; Ok (add event "priority" v)
  else Ok event.

(** [# calendar as category] *)
Definition category_body (calendar : value) (event : component)
  : result component :=
  n <- get calendar "name" VNone ;;
  if truthy n
  then v <- getitem calendar "name" ;; Ok (add event "categories" v)
  else Ok event.

Definition format_categories (item : value) (event : component)
  : result component :=
  cs <- get item "calendars" (VList []) ;;
  l <- iter cs ;;
  for_each category_body l event.

(** [# dates], up to the [try] statement *)
Definition format_dates (item : value) (event : component)
  : result component :=
  dates <- get item "dates" (VDict []) ;;
  s <- getitem dates "start" ;;
  let event := add event "dtstart" s in
  e <- get dates "end" VNone ;;
  if truthy e
  then v <- getitem dates "end" ;; Ok (add event "dtend" v)
  else Ok event.

(** The [try ... except KeyError: pass] statement of [# dates] *)
Definition recurring_rule (item : value) : result value :=
  ev <- getitem item "event" ;;
  ds <- getitem ev "dates" ;;
  getitem ds "recurring_rule".

Definition format_rrule (item : value) (event : component)
  : result component :=
  try_except_KeyError
    (rrule <- recurring_rule item ;;
     kwargs <- get_rrule_kwargs rrule ;;
     Ok (add event "rrule" kwargs))
    (Ok event).

(** [# attachments] *)
Definition attachment_body (media : value) (event : component)
  : result component :=
  m <- get media "media" VNone ;;
  if truthy m
  then id <- getitem media "media" ;;
       Ok (add event "attach" (url_for "upload.get_upload" id))
  else Ok event.

Definition format_attachments (item : value) (event : component)
  : result component :=
  ev <- get item "event" (VDict []) ;;
  files <- get ev "files" (VList []) ;;
  l <- iter files ;;
  for_each attachment_body l event.

(** [# geo] *)
Definition coordinates (loc : value) : result value :=
  a <- getitem loc "location" ;;
  lat <- getitem a "lat" ;;
  b <- getitem loc "location" ;;
  lon <- getitem b "lon" ;;
  Ok (VTuple [lat; lon]).

Definition location_body (loc : value) (event : component)
  : result component :=
  n <- get loc "name" VNone ;;
  event <- (if truthy n
            then v <- getitem loc "name" ;; Ok (add event "location" v)
            else Ok event) ;;
  try_except_KeyError
    (c <- coordinates loc ;; Ok (add event "geo" c))
    (Ok event).

Definition format_geo (item : value) (event : component)
  : result component :=
  locs <- get item "location" VNone ;;
  if truthy locs
  then ls <- getitem item "location" ;;
       l <- iter ls ;;
       for_each location_body l event
  else Ok event.

(** [# links] *)
Definition link_body (link : value) (event : component) : result component :=
  Ok (add event "url" link).

Definition format_links (item : value) (event : component)
  : result component :=
  ev <- get item "event" (VDict []) ;;
  links <- get ev "links" (VList []) ;;
  l <- iter links ;;
  for_each link_body l event.

(** [# contacts]: the argument of [event.add('contact', ...)] *)
Definition format_contact (contact : value) : result value :=
  let name := get_contact_name contact in
  organisation <- get contact "organisation" VNone ;;
  let email := get_contact_email contact in
  join ", " (filter truthy [name; organisation; email]).

Definition contact_body (contact : value) (event : component)
  : result component :=
  p <- get contact "public" VNone ;;
  if truthy p
  then s <- format_contact contact ;; Ok (add event "contact" s)
  else Ok event.

Definition format_contacts (item : value) (event : component)
  : result component :=
  ev <- get item "event" (VDict []) ;;
  cs <- get ev "event_contact_info" VNone ;;
  l <- iter cs ;;
  for_each contact_body l event.

Definition format_event (item : value) : result component :=
  let event := Event in
  g <- guid item ;;
  let event := add event "uid" g in
  let event := add event "dtstamp" utcnow in
  event <- format_description item event ;;
  event <- format_categories item event ;;
  event <- format_dates item event ;;
  event <- format_rrule item event ;;
  event <- format_attachments item event ;;
  event <- format_geo item event ;;
  event <- format_links item event ;;
  event <- format_contacts item event ;;
  Ok event.

Definition format_item (item : value) : result bytes :=
  let cal := new_calendar in
  let cal := setitem cal "version" VERSION in
  let cal := setitem cal "prodid" PRODID in
  event <- format_event item ;;
  let cal := add_component cal event in
  Ok (to_ical cal).

(** [str(o)], as the [%s] conversion renders a value: text as it is, [None]
    and the booleans by name, an integer in decimal.  [repr] stands for
    Python's rendering of the other values (floats, dates, containers). *)
Definition py_str (repr : value -> string) (o : value) : string :=
  match o with
  | VStr s => s
  | VNone => "None"
  | VBool true => "True"
  | VBool false => "False"
  | VInt n => NilZero.string_of_int (Z.to_int n)
  | _ => repr o
  end.

(** ['%s.ical' % guid(event)]: a tuple on the right of [%] is the list of
    arguments, and the format takes exactly one. *)
Definition format_filename (repr : value -> string) (event : value)
  : result string :=
  g <- guid event ;;
  match g with
  | VTuple [x] => Ok (py_str repr x ++ ".ical")%string
  | VTuple _ => Raise TypeError
  | _ => Ok (py_str repr g ++ ".ical")%string
  end.

(** ** Reading records

    [field o k] is the entry [k] of the mapping [o], [path o ks] follows a
    chain of keys, and [elements o] are the items a loop over an entry
    visits. *)

Definition field (o : value) (k : string) : option value :=
  match o with
  | VDict d => lookup k d
  | _ => None
  end.

Fixpoint path (o : value) (ks : list string) : option value :=
  match ks with
  | [] => Some o
  | k :: ks' =>
      match field o k with
      | Some o' => path o' ks'
      | None => None
      end
  end.

Definition elements (o : option value) : list value :=
  match o with
  | Some v => match iter v with Ok l => l | Raise _ => [] end
  | None => []
  end.

Definition is_dict (o : value) : bool :=
  match o with
  | VDict _ => true
  | _ => false
  end.

(** The types of the fields of an agenda record: an optional field is absent
    or has the type given for it. *)
Definition opt_mapping (o : option value) : bool :=
  match o with
  | None => true
  | Some v => is_dict v
  end.

Definition opt_list_of (p : value -> bool) (o : option value) : bool :=
  match o with
  | None => true
  | Some (VList l) => forallb p l
  | Some _ => false
  end.

Definition typed_event (item : value) : bool :=
  is_dict item && opt_mapping (field item "event").

Definition typed_calendars (item : value) : bool :=
  opt_list_of is_dict (field item "calendars").

Definition typed_dates (item : value) : bool :=
  opt_mapping (field item "dates").

Definition typed_recurrence (item : value) : bool :=
  match path item ["event"; "dates"] with
  | Some ds => is_dict ds && opt_mapping (field ds "recurring_rule")
  | None => true
  end.

Definition typed_files (item : value) : bool :=
  opt_list_of is_dict (path item ["event"; "files"]).

Definition typed_loc (loc : value) : bool :=
  is_dict loc && opt_mapping (field loc "location").

Definition typed_location (item : value) : bool :=
  opt_list_of typed_loc (field item "location").

Definition typed_links (item : value) : bool :=
  opt_list_of (fun _ => true) (path item ["event"; "links"]).

Definition typed_record (item : value) : bool :=
  typed_event item && typed_calendars item && typed_dates item
  && typed_recurrence item && typed_files item && typed_location item
  && typed_links item.

(** A key of the chain [ks] is missing: following [ks] from [o] through
    mappings reaches a mapping without the next key. *)
Fixpoint missing_key (o : value) (ks : list string) : bool :=
  match ks with
  | [] => false
  | k :: ks' =>
      match o with
      | VDict d =>
          match lookup k d with
          | Some o' => missing_key o' ks'
          | None => true
          end
      | _ => false
      end
  end.

(** [o.get(k)] on a mapping [o]. *)
Definition entry (o : value) (k : string) : value :=
  match field o k with
  | Some v => v
  | None => VNone
  end.

(** The entry [k] of [d] when it is there and true, as [if d.get(k):] sees
    it. *)
Definition kept (k : string) (o : value) : option value :=
  match field o k with
  | Some v => if truthy v then Some v else None
  | None => None
  end.

Definition kept_as (name k : string) (o : value) : list (string * value) :=
  match kept k o with
  | Some v => [(name, v)]
  | None => []
  end.

(** The properties one location entry contributes. *)
Definition loc_props (loc : value) : list (string * value) :=
  kept_as "location" "name" loc ++
  match path loc ["location"; "lat"], path loc ["location"; "lon"] with
  | Some lat, Some lon => [("geo", VTuple [lat; lon])]
  | _, _ => []
  end.

(** The parts that are not empty, separated by [", "]: no separator before
    the first or after the last part, one between two parts. *)
Fixpoint join_nonempty (parts : list string) : string :=
  match parts with
  | [] => ""
  | p :: rest =>
      let r := join_nonempty rest in
      if String.eqb p "" then r
      else if String.eqb r "" then p
      else (p ++ ", " ++ r)%string
  end.

(** The text of a contact part; an absent part ([None]) has none. *)
Definition text (v : value) : string :=
  match v with
  | VStr s => s
  | _ => ""
  end.

Definition text_or_none (v : value) : bool :=
  match v with
  | VStr _ | VNone => true
  | _ => false
  end.

(** ** The properties of an event, read off the record

    What each block of [format_event] adds, as a function of the record. *)

Definition present_as (name : string) (ks : list string) (o : value)
  : list (string * value) :=
  match path o ks with
  | Some v => [(name, v)]
  | None => []
  end.

Definition attach_props (media : value) : list (string * value) :=
  match kept "media" media with
  | Some id => [("attach", url_for "upload.get_upload" id)]
  | None => []
  end.

Definition rrule_props (item : value) : list (string * value) :=
  match path item ["event"; "dates"; "recurring_rule"] with
  | Some rrule =>
      match get_rrule_kwargs rrule with
      | Ok kwargs => [("rrule", kwargs)]
      | Raise _ => []
      end
  | None => []
  end.

Definition link_props (link : value) : list (string * value) :=
  [("url", link)].

Definition contact_props (contact : value) : list (string * value) :=
  match kept "public" contact with
  | Some _ =>
      match format_contact contact with
      | Ok s => [("contact", s)]
      | Raise _ => []
      end
  | None => []
  end.

Definition dates_of (item : value) : value :=
  match field item "dates" with
  | Some ds => ds
  | None => VDict []
  end.

Definition event_props (item : value) : component :=
  match guid item with Ok g => [("uid", g)] | Raise _ => [] end
  ++ [("dtstamp", utcnow)]
  ++ present_as "summary" ["name"] item
  ++ kept_as "description" "definition_long" item
  ++ kept_as "comment" "ednote" item
  ++ kept_as "priority" "priority" item
  ++ flat_map (kept_as "categories" "name") (elements (field item "calendars"))
  ++ present_as "dtstart" ["dates"; "start"] item
  ++ kept_as "dtend" "end" (dates_of item)
  ++ rrule_props item
  ++ flat_map attach_props (elements (path item ["event"; "files"]))
  ++ flat_map loc_props (elements (field item "location"))
  ++ flat_map link_props (elements (path item ["event"; "links"]))
  ++ flat_map contact_props (elements (path item ["event"; "event_contact_info"])).

(** Contacts: the text of a contact whose three parts are strings or
    [None], and the contacts that are shown. *)
Definition typed_contact (contact : value) : bool :=
  is_dict contact
  && text_or_none (get_contact_name contact)
  && text_or_none (entry contact "organisation")
  && text_or_none (get_contact_email contact).

Definition contact_text (contact : value) : string :=
  join_nonempty [text (get_contact_name contact);
                 text (entry contact "organisation");
                 text (get_contact_email contact)].

Definition is_public (contact : value) : bool :=
  truthy (entry contact "public").

(** ** Further readings of a record and of an event *)

(** The identifier of a record: its own [guid], else the [guid] of its
    [event], else its [_id]. *)
Definition identifier (item : value) : value :=
  match field item "guid" with
  | Some g => g
  | None =>
      match path item ["event"; "guid"] with
      | Some g => g
      | None => entry item "_id"
      end
  end.

Definition is_tuple (o : value) : bool :=
  match o with
  | VTuple _ => true
  | _ => false
  end.

Definition is_str (o : value) : bool :=
  match o with
  | VStr _ => true
  | _ => false
  end.

(** The values of the properties called [name], in the order they were
    added. *)
Definition values_named (name : string) (ev : component) : list value :=
  map snd (filter (fun p => String.eqb (fst p) name) ev).

Definition opt_values (o : option value) : list value :=
  match o with
  | Some v => [v]
  | None => []
  end.

(** The coordinates of a location entry. *)
Definition geo_values (loc : value) : list value :=
  match path loc ["location"; "lat"], path loc ["location"; "lon"] with
  | Some lat, Some lon => [VTuple [lat; lon]]
  | _, _ => []
  end.

(** Following the keys [ks] from [o] meets a value that is not a mapping
    before a key is missing; the value at the end counts. *)
Fixpoint blocked (o : value) (ks : list string) : bool :=
  match o with
  | VDict d =>
      match ks with
      | [] => false
      | k :: ks' =>
          match lookup k d with
          | Some o' => blocked o' ks'
          | None => false
          end
      end
  | _ => true
  end.

(** A part of a contact that [join] accepts after [filter(None, ...)]: it is
    dropped, or it is text. *)
Definition part_ok (v : value) : bool :=
  negb (truthy v) || is_str v.

Definition contact_parts (contact : value) : list value :=
  [get_contact_name contact; entry contact "organisation";
   get_contact_email contact].

Definition nonempty (s : string) : bool :=
  negb (String.eqb s "").

(** A contact the loop gets through: a mapping that is not shown, or whose
    parts [join] accepts. *)
Definition contact_ok (contact : value) : bool :=
  is_dict contact
  && (negb (is_public contact) || forallb part_ok (contact_parts contact)).

Definition contacts_ok (item : value) : bool :=
  opt_list_of contact_ok (path item ["event"; "event_contact_info"]).

(** ** The values the calendar library takes

    [add] above records a call of [event.add(name, value)].  The library
    converts the value to the type of the property and raises [ValueError],
    which the formatter does not handle, when it cannot: a priority that is
    not an integer, a dtstart or dtend that is not a date, coordinates that
    are not numbers.  [accepted] holds of the calls whose value has the type
    the data model gives it, which the library takes: text for the text
    properties (and [None] for the uid, rendered as text), an integer for
    priority, a date and time for dtstamp, dtstart and dtend, a pair of
    floats for geo, the parameters built by [get_rrule_kwargs] for rrule.
    A statement that an event is produced, or that a later statement of
    [format_event] raises, takes the calls made before as accepted. *)

Definition is_int (o : value) : bool :=
  match o with
  | VInt _ => true
  | _ => false
  end.

Definition is_datetime (o : value) : bool :=
  match o with
  | VDatetime _ => true
  | _ => false
  end.

Definition is_float (o : value) : bool :=
  match o with
  | VFloat _ => true
  | _ => false
  end.

Definition is_none (o : value) : bool :=
  match o with
  | VNone => true
  | _ => false
  end.

Definition accepted (p : string * value) : bool :=
  let (name, v) := p in
  if String.eqb name "priority" then is_int v
  else if (String.eqb name "dtstamp" || String.eqb name "dtstart"
           || String.eqb name "dtend")%bool then is_datetime v
  else if String.eqb name "geo"
       then match v with
            | VTuple [lat; lon] => (is_float lat && is_float lon)%bool
            | _ => false
            end
  else if String.eqb name "rrule" then is_dict v
  else if String.eqb name "uid" then (is_str v || is_none v)%bool
  else is_str v.

(** The properties added before the dates are read: uid, dtstamp, summary,
    description, comment, priority and the categories. *)
Definition head_props (item : value) : component :=
  match guid item with Ok g => [("uid", g)] | Raise _ => [] end
  ++ [("dtstamp", utcnow)]
  ++ present_as "summary" ["name"] item
  ++ kept_as "description" "definition_long" item
  ++ kept_as "comment" "ednote" item
  ++ kept_as "priority" "priority" item
  ++ flat_map (kept_as "categories" "name") (elements (field item "calendars")).

(** ** Stand-ins for the collaborators, used in the examples *)

Definition stub_now : value := VDatetime 1500000000.

Definition stub_url_for (endpoint : string) (media_id : value) : value :=
  VStr ("/" ++ endpoint ++ "/" ++ text media_id)%string.

Definition stub_contact_name (contact : value) : value :=
  match field contact "name" with
  | Some v => v
  | None => VNone
  end.

Definition stub_contact_email (contact : value) : value :=
  match field contact "email" with
  | Some v => v
  | None => VNone
  end.

Definition stub_to_ical (cal : calendar) : calendar := cal.

Definition stub_repr (o : value) : string := "<object>".

(** ** Sample records *)

Definition jane : value :=
  VDict [("public", VBool true); ("name", VStr "Jane Doe");
         ("organisation", VStr ""); ("email", VStr "jane@x.com")].

Definition desk : value :=
  VDict [("public", VBool false); ("name", VStr "News desk")].

Definition hq : value :=
  VDict [("name", VStr "HQ"); ("location", VDict [("lat", VFloat 1.0)])].

Definition daily5 : value :=
  VDict [("frequency", VStr "DAILY"); ("count", VInt 5)].

Definition conference : value :=
  VDict [("guid", VStr "abc123");
         ("name", VStr "Conference");
         ("calendars", VList [VDict [("name", VStr "Sport")];
                              VDict [("name", VStr "")]]);
         ("dates", VDict [("start", VDatetime 1500003600)]);
         ("location", VList [hq]);
         ("event", VDict [("dates", VDict [("recurring_rule", daily5)]);
                          ("links", VList [VStr "https://example.com/"]);
                          ("event_contact_info", VList [jane; desk])])].

(** The event of [conference], with the stand-ins. *)
Definition conference_event : component :=
  [("uid", VStr "abc123"); ("dtstamp", stub_now);
   ("summary", VStr "Conference"); ("categories", VStr "Sport");
   ("dtstart", VDatetime 1500003600);
   ("rrule", VDict [("freq", VStr "DAILY"); ("count", VInt 5)]);
   ("location", VStr "HQ"); ("url", VStr "https://example.com/");
   ("contact", VStr "Jane Doe, jane@x.com")].

(** A record with a priority of 0, an empty description and a note. *)
Definition quiet : value :=
  VDict [("_id", VStr "q1");
         ("name", VStr "Quiet day");
         ("definition_long", VStr "");
         ("ednote", VStr "call first");
         ("priority", VInt 0);
         ("dates", VDict [("start", VDatetime 1500003600);
                          ("end", VDatetime 1500007200)]);
         ("event", VDict [("event_contact_info", VList [])])].

Definition quiet_event : component :=
  [("uid", VStr "q1"); ("dtstamp", stub_now); ("summary", VStr "Quiet day");
   ("comment", VStr "call first"); ("dtstart", VDatetime 1500003600);
   ("dtend", VDatetime 1500007200)].

(** A contact that is not public, with an organisation that is not text. *)
Definition odd : value :=
  VDict [("public", VBool false); ("organisation", VInt 5)].

Definition sources : value :=
  VDict [("event", VDict [("event_contact_info", VList [odd; jane])])].

(** A record with an empty link and a public contact without any part. *)
Definition bare : value :=
  VDict [("guid", VStr "abc124");
         ("name", VStr "Briefing");
         ("dates", VDict [("start", VDatetime 1500003600)]);
         ("event", VDict [("links", VList [VStr ""]);
                          ("event_contact_info",
                           VList [VDict [("public", VBool true)]])])].

(** ** Basic facts on the Python operations *)

Lemma bind_Ok {A B} (c : result A) (k : A -> result B) (b : B) :
  bind c k = Ok b -> exists a, c = Ok a /\ k a = Ok b.
Proof.
  destruct c as [a|e]; simpl; intros H; [exists a; auto | discriminate].
Qed.

Lemma get_dict (d : list (string * value)) (k : string) (default : value) :
  get (VDict d) k default =
  Ok (match lookup k d with Some v => v | None => default end).
Proof. reflexivity. Qed.

Lemma get_Ok (o : value) (k : string) (default v : value) :
  get o k default = Ok v ->
  is_dict o = true /\
  v = match field o k with Some x => x | None => default end.
Proof.
  destruct o; simpl; try discriminate.
  intros H; injection H as <-; auto.
Qed.

Lemma getitem_Ok (o : value) (k : string) (v : value) :
  getitem o k = Ok v <-> field o k = Some v.
Proof.
  destruct o; simpl; try (split; discriminate).
  destruct (lookup k d); split; intros H; try discriminate;
    injection H as <-; reflexivity.
Qed.

(** ** The blocks of [format_event] *)

Lemma guid_succeeds (item : value) :
  typed_event item = true -> exists g, guid item = Ok g.
Proof.
  destruct item as [| | | | | | | |d]; try discriminate.
  unfold typed_event, guid; simpl.
  destruct (lookup "event" d) as [ev|]; simpl.
  - destruct ev; try discriminate; intros _; eexists; reflexivity.
  - intros _; eexists; reflexivity.
Qed.

Lemma guid_Ok_typed (item g : value) :
  guid item = Ok g -> typed_event item = true.
Proof.
  destruct item as [| | | | | | | |d]; try discriminate.
  unfold typed_event, guid; simpl.
  destruct (lookup "event" d) as [ev|]; simpl; auto.
  destruct ev; try discriminate; auto.
Qed.

Lemma typed_event_dict (item : value) :
  typed_event item = true -> exists d, item = VDict d.
Proof.
  destruct item; try discriminate; eauto.
Qed.

Lemma in_kept_as (name k : string) (o : value) (p : string * value) :
  In p (kept_as name k o) -> exists v, p = (name, v) /\ kept k o = Some v.
Proof.
  unfold kept_as; destruct (kept k o) as [v|]; simpl; [|tauto].
  intros [<-|[]]; eauto.
Qed.

Lemma in_present_as (name : string) (ks : list string) (o : value)
  (p : string * value) :
  In p (present_as name ks o) -> exists v, p = (name, v) /\ path o ks = Some v.
Proof.
  unfold present_as; destruct (path o ks) as [v|]; simpl; [|tauto].
  intros [<-|[]]; eauto.
Qed.

(** [if o.get(k): event.add(name, o[k])] on a mapping [o]. *)
Lemma keep_dict (d : list (string * value)) (k name : string) (ev : component) :
  (x <- get (VDict d) k VNone ;;
   if truthy x
   then v <- getitem (VDict d) k ;; Ok (add ev name v)
   else Ok ev)
  = Ok (ev ++ kept_as name k (VDict d)).
Proof.
  unfold kept_as, kept, add; simpl.
  destruct (lookup k d) as [v|]; simpl;
    [destruct (truthy v); simpl|]; rewrite ?app_nil_r; reflexivity.
Qed.

Lemma for_each_app (body : value -> component -> result component)
  (props : value -> list (string * value)) (ok : value -> bool) :
  (forall x ev, ok x = true -> body x ev = Ok (ev ++ props x)) ->
  forall l ev, forallb ok l = true ->
               for_each body l ev = Ok (ev ++ flat_map props l).
Proof.
  intros Hb; induction l as [|x l IH]; intros ev Hl; simpl in *.
  - rewrite app_nil_r; reflexivity.
  - apply andb_prop in Hl as [Hx Hl].
    rewrite (Hb _ _ Hx); simpl.
    rewrite (IH _ Hl), app_assoc; reflexivity.
Qed.

Lemma for_each_inv (body : value -> component -> result component)
  (props : value -> list (string * value)) :
  (forall x ev ev', body x ev = Ok ev' -> ev' = ev ++ props x) ->
  forall l ev ev', for_each body l ev = Ok ev' ->
                   ev' = ev ++ flat_map props l.
Proof.
  intros Hb; induction l as [|x l IH]; intros ev ev' H; simpl in *.
  - injection H as <-; rewrite app_nil_r; reflexivity.
  - apply bind_Ok in H as (ev1 & H1 & H).
    apply Hb in H1; subst ev1.
    apply IH in H; rewrite H, app_assoc; reflexivity.
Qed.

(** An entry that is iterated over: what the loop visits. *)
Lemma elements_default (o : value) (k : string) (default : value)
  (x : value) (l : list value) :
  get o k default = Ok x -> iter default = Ok [] -> iter x = Ok l ->
  elements (field o k) = l.
Proof.
  intros Hx Hd Hl; apply get_Ok in Hx as [_ ->].
  unfold elements; destruct (field o k) as [v|].
  - rewrite Hl; reflexivity.
  - rewrite Hd in Hl; injection Hl as <-; reflexivity.
Qed.

Lemma typed_list_elements (p : value -> bool) (o : option value) :
  opt_list_of p o = true ->
  forallb p (elements o) = true /\
  forall default, iter default = Ok [] ->
    iter (match o with Some v => v | None => default end) = Ok (elements o).
Proof.
  destruct o as [v|]; simpl.
  - destruct v; try discriminate; simpl; auto.
  - auto.
Qed.

(** [# description] *)
Lemma format_description_dict (d : list (string * value)) (ev : component) :
  format_description (VDict d) ev =
  match lookup "name" d with
  | Some n =>
      Ok (ev ++ ("summary", n)
             :: kept_as "description" "definition_long" (VDict d)
             ++ kept_as "comment" "ednote" (VDict d)
             ++ kept_as "priority" "priority" (VDict d))
  | None => Raise (KeyError "name")
  end.
Proof.
  unfold format_description, kept_as, kept, add; simpl.
  destruct (lookup "name" d) as [n|]; simpl; [|reflexivity].
  destruct (lookup "definition_long" d) as [x|]; simpl;
    [destruct (truthy x); simpl|];
    (destruct (lookup "ednote" d) as [y|]; simpl;
       [destruct (truthy y); simpl|];
       (destruct (lookup "priority" d) as [z|]; simpl;
          [destruct (truthy z); simpl|];
          rewrite <- ?app_assoc; simpl; rewrite ?app_nil_r; reflexivity)).
Qed.

(** [# calendar as category] *)
Lemma category_body_inv (c : value) (ev ev' : component) :
  category_body c ev = Ok ev' -> ev' = ev ++ kept_as "categories" "name" c.
Proof.
  destruct c as [| | | | | | | |d]; try discriminate.
  unfold category_body; rewrite keep_dict; intros H; injection H as <-.
  reflexivity.
Qed.

Lemma format_categories_inv (item : value) (ev ev' : component) :
  format_categories item ev = Ok ev' ->
  ev' = ev ++ flat_map (kept_as "categories" "name")
                (elements (field item "calendars")).
Proof.
  unfold format_categories; intros H.
  apply bind_Ok in H as (cs & Hcs & H).
  apply bind_Ok in H as (l & Hl & H).
  rewrite (elements_default _ _ _ _ _ Hcs eq_refl Hl).
  revert H; apply for_each_inv, category_body_inv.
Qed.

Lemma format_categories_typed (d : list (string * value)) (ev : component) :
  typed_calendars (VDict d) = true ->
  format_categories (VDict d) ev =
  Ok (ev ++ flat_map (kept_as "categories" "name")
          (elements (field (VDict d) "calendars"))).
Proof.
  unfold typed_calendars; intros H.
  apply typed_list_elements in H as [Hall Hit].
  unfold format_categories; rewrite get_dict; cbn [bind].
  change (lookup "calendars" d) with (field (VDict d) "calendars").
  rewrite (Hit (VList []) eq_refl); cbn [bind].
  apply (for_each_app _ _ is_dict); [|exact Hall].
  intros [| | | | | | | |c] e; try discriminate; intros _.
  apply keep_dict.
Qed.

(** [# dates] *)
Lemma format_dates_dict (d ds : list (string * value)) (ev : component) :
  dates_of (VDict d) = VDict ds ->
  format_dates (VDict d) ev =
  match lookup "start" ds with
  | Some s => Ok (ev ++ ("dtstart", s) :: kept_as "dtend" "end" (VDict ds))
  | None => Raise (KeyError "start")
  end.
Proof.
  unfold dates_of, format_dates; simpl; intros ->; simpl.
  destruct (lookup "start" ds) as [s|]; simpl; [|reflexivity].
  unfold kept_as, kept, add; simpl.
  destruct (lookup "end" ds) as [e|]; simpl;
    [destruct (truthy e); simpl|];
    rewrite <- ?app_assoc; simpl; rewrite ?app_nil_r; reflexivity.
Qed.

Lemma format_dates_inv (d : list (string * value)) (ev ev' : component) :
  format_dates (VDict d) ev = Ok ev' ->
  ev' = ev ++ present_as "dtstart" ["dates"; "start"] (VDict d)
           ++ kept_as "dtend" "end" (dates_of (VDict d)).
Proof.
  destruct (dates_of (VDict d)) as [| | | | | | | |ds] eqn:Hds;
    try (unfold format_dates, dates_of in *; simpl in *; rewrite Hds;
         discriminate).
  rewrite (format_dates_dict _ _ _ Hds).
  unfold present_as, dates_of in *; simpl in *.
  destruct (lookup "dates" d) as [x|]; subst; simpl.
  - destruct (lookup "start" ds) as [s|]; [|discriminate].
    intros H; injection H as <-; reflexivity.
  - injection Hds as <-; discriminate.
Qed.

Lemma path_one (o : value) (a : string) : path o [a] = field o a.
Proof. simpl; destruct (field o a); reflexivity. Qed.

Lemma path_two (o : value) (a b : string) :
  path o [a; b] = match field o a with Some x => field x b | None => None end.
Proof.
  simpl; destruct (field o a) as [x|]; [destruct (field x b)|]; reflexivity.
Qed.

Lemma path_three (o : value) (a b c : string) :
  path o [a; b; c] =
  match path o [a; b] with Some x => field x c | None => None end.
Proof.
  simpl; destruct (field o a) as [x|]; [|reflexivity].
  destruct (field x b) as [y|]; [|reflexivity].
  destruct (field y c); reflexivity.
Qed.

(** The [try ... except KeyError] statement of [# dates] *)
Lemma get_rrule_kwargs_dict (d : list (string * value)) :
  get_rrule_kwargs (VDict d) =
  match lookup "frequency" d with
  | Some f =>
      Ok (VDict (("freq", f) :: kept_as "count" "count" (VDict d)
                   ++ kept_as "interval" "interval" (VDict d)
                   ++ kept_as "until" "until" (VDict d)))
  | None => Raise (KeyError "frequency")
  end.
Proof.
  unfold get_rrule_kwargs, kept_as, kept; simpl.
  destruct (lookup "frequency" d) as [f|]; simpl; [|reflexivity].
  destruct (lookup "count" d) as [c|]; simpl;
    [destruct (truthy c)|]; simpl;
    (destruct (lookup "interval" d) as [i|]; simpl;
       [destruct (truthy i)|]; simpl;
       (destruct (lookup "until" d) as [u|]; simpl;
          [destruct (truthy u)|]; reflexivity)).
Qed.

Lemma recurring_rule_Ok (item r : value) :
  recurring_rule item = Ok r ->
  path item ["event"; "dates"; "recurring_rule"] = Some r.
Proof.
  unfold recurring_rule; intros H.
  apply bind_Ok in H as (e & He & H).
  apply bind_Ok in H as (ds & Hds & H).
  apply getitem_Ok in He, Hds, H.
  rewrite path_three, path_two, He, Hds; exact H.
Qed.

Lemma recurring_rule_KeyError (item : value) (k : string) :
  recurring_rule item = Raise (KeyError k) ->
  path item ["event"; "dates"; "recurring_rule"] = None.
Proof.
  unfold recurring_rule; rewrite path_three, path_two.
  destruct item as [| | | | | | | |d]; try discriminate; simpl.
  destruct (lookup "event" d) as [e|]; simpl; [|reflexivity].
  destruct e as [| | | | | | | |ed]; try discriminate; simpl.
  destruct (lookup "dates" ed) as [ds|]; simpl; [|reflexivity].
  destruct ds as [| | | | | | | |dd]; try discriminate; simpl.
  destruct (lookup "recurring_rule" dd); [discriminate|reflexivity].
Qed.

Lemma format_rrule_inv (item : value) (ev ev' : component) :
  format_rrule item ev = Ok ev' -> ev' = ev ++ rrule_props item.
Proof.
  unfold format_rrule, rrule_props.
  destruct (recurring_rule item) as [r|e] eqn:Hr.
  - rewrite (recurring_rule_Ok _ _ Hr); cbn [bind].
    destruct (get_rrule_kwargs r) as [kw|[k| |]]; simpl;
      try discriminate; intros H; injection H as <-;
      rewrite ?app_nil_r; reflexivity.
  - destruct e as [k| |]; try discriminate.
    rewrite (recurring_rule_KeyError _ _ Hr); simpl.
    intros H; injection H as <-; rewrite app_nil_r; reflexivity.
Qed.

Lemma recurring_rule_typed (item : value) :
  typed_event item = true -> typed_recurrence item = true ->
  match path item ["event"; "dates"; "recurring_rule"] with
  | Some r => recurring_rule item = Ok r /\ is_dict r = true
  | None => exists k, recurring_rule item = Raise (KeyError k)
  end.
Proof.
  unfold typed_event, typed_recurrence, recurring_rule.
  rewrite path_three, path_two.
  destruct item as [| | | | | | | |d]; try discriminate; simpl.
  destruct (lookup "event" d) as [e|]; simpl; [|eauto].
  destruct e as [| | | | | | | |ed]; try discriminate; simpl.
  destruct (lookup "dates" ed) as [ds|]; simpl; [|eauto].
  destruct ds as [| | | | | | | |dd]; try discriminate; simpl.
  destruct (lookup "recurring_rule" dd) as [r|]; simpl; eauto.
Qed.

Lemma format_rrule_typed (item : value) (ev : component) :
  typed_event item = true -> typed_recurrence item = true ->
  format_rrule item ev = Ok (ev ++ rrule_props item).
Proof.
  intros He Hr; pose proof (recurring_rule_typed _ He Hr) as H.
  unfold format_rrule, rrule_props.
  destruct (path item ["event"; "dates"; "recurring_rule"]) as [r|].
  - destruct H as [-> Hd]; simpl.
    destruct r as [| | | | | | | |rd]; try discriminate.
    rewrite get_rrule_kwargs_dict.
    destruct (lookup "frequency" rd); simpl; rewrite ?app_nil_r; reflexivity.
  - destruct H as [k ->]; simpl; rewrite app_nil_r; reflexivity.
Qed.

(** Entries of the [event] sub-object that a loop runs over *)
Lemma event_entry_elements (item e x default : value) (k : string)
  (l : list value) :
  get item "event" (VDict []) = Ok e -> get e k default = Ok x ->
  (forall l', iter default = Ok l' -> l' = []) -> iter x = Ok l ->
  elements (path item ["event"; k]) = l.
Proof.
  intros He Hx Hd Hl.
  apply get_Ok in He as [_ ->]; apply get_Ok in Hx as [_ ->].
  rewrite path_two; unfold elements.
  destruct (field item "event") as [v|].
  - destruct (field v k); [rewrite Hl; reflexivity|].
    symmetry; apply Hd, Hl.
  - simpl in Hl; symmetry; apply Hd, Hl.
Qed.

Lemma event_entry_typed (p : value -> bool) (d : list (string * value))
  (k : string) (default : value) (body : value -> component -> result component)
  (ev : component) :
  typed_event (VDict d) = true ->
  opt_list_of p (path (VDict d) ["event"; k]) = true ->
  iter default = Ok [] ->
  (e <- get (VDict d) "event" (VDict []) ;;
   x <- get e k default ;;
   l <- iter x ;;
   for_each body l ev)
  = for_each body (elements (path (VDict d) ["event"; k])) ev.
Proof.
  unfold typed_event; rewrite path_two; simpl.
  destruct (lookup "event" d) as [e|]; simpl.
  - destruct e as [| | | | | | | |ed]; try discriminate; simpl.
    destruct (lookup k ed) as [x|]; simpl.
    + destruct x; try discriminate; reflexivity.
    + intros _ _ ->; reflexivity.
  - intros _ _ ->; reflexivity.
Qed.

(** [# attachments] *)
Lemma attachment_body_dict (m : list (string * value)) (ev : component) :
  attachment_body (VDict m) ev = Ok (ev ++ attach_props (VDict m)).
Proof.
  unfold attachment_body, attach_props, kept, add; simpl.
  destruct (lookup "media" m) as [v|]; simpl;
    [destruct (truthy v); simpl|]; rewrite ?app_nil_r; reflexivity.
Qed.

Lemma attachment_body_inv (m : value) (ev ev' : component) :
  attachment_body m ev = Ok ev' -> ev' = ev ++ attach_props m.
Proof.
  destruct m; try discriminate.
  rewrite attachment_body_dict; intros H; injection H as <-; reflexivity.
Qed.

Lemma format_attachments_inv (item : value) (ev ev' : component) :
  format_attachments item ev = Ok ev' ->
  ev' = ev ++ flat_map attach_props (elements (path item ["event"; "files"])).
Proof.
  unfold format_attachments; intros H.
  apply bind_Ok in H as (e & He & H).
  apply bind_Ok in H as (x & Hx & H).
  apply bind_Ok in H as (l & Hl & H).
  rewrite (event_entry_elements item e x (VList []) "files" l He Hx); trivial.
  - revert H; apply for_each_inv, attachment_body_inv.
  - intros l' H'; injection H' as <-; reflexivity.
Qed.

Lemma format_attachments_typed (d : list (string * value)) (ev : component) :
  typed_event (VDict d) = true -> typed_files (VDict d) = true ->
  format_attachments (VDict d) ev =
  Ok (ev ++ flat_map attach_props (elements (path (VDict d) ["event"; "files"]))).
Proof.
  intros He Hf; unfold format_attachments.
  rewrite (event_entry_typed is_dict); trivial.
  apply (for_each_app _ _ is_dict).
  - intros [| | | | | | | |m] e; try discriminate; intros _.
    apply attachment_body_dict.
  - apply typed_list_elements, Hf.
Qed.

(** [# links] *)
Lemma format_links_inv (item : value) (ev ev' : component) :
  format_links item ev = Ok ev' ->
  ev' = ev ++ flat_map link_props (elements (path item ["event"; "links"])).
Proof.
  unfold format_links; intros H.
  apply bind_Ok in H as (e & He & H).
  apply bind_Ok in H as (x & Hx & H).
  apply bind_Ok in H as (l & Hl & H).
  rewrite (event_entry_elements item e x (VList []) "links" l He Hx); trivial.
  - revert H; apply for_each_inv.
    intros y e1 e2 Hy; injection Hy as <-; reflexivity.
  - intros l' H'; injection H' as <-; reflexivity.
Qed.

Lemma format_links_typed (d : list (string * value)) (ev : component) :
  typed_event (VDict d) = true -> typed_links (VDict d) = true ->
  format_links (VDict d) ev =
  Ok (ev ++ flat_map link_props (elements (path (VDict d) ["event"; "links"]))).
Proof.
  intros He Hf; unfold format_links.
  rewrite (event_entry_typed (fun _ => true)); trivial.
  apply (for_each_app _ _ (fun _ => true)).
  - reflexivity.
  - apply typed_list_elements, Hf.
Qed.

(** [# geo] *)
Lemma falsy_elements (v : value) : truthy v = false -> elements (Some v) = [].
Proof.
  destruct v as [|b|n|f|s|t|l|l|d]; simpl; try reflexivity; try discriminate.
  - destruct s; [reflexivity|discriminate].
  - destruct l; [reflexivity|discriminate].
  - destruct l; [reflexivity|discriminate].
  - destruct d; [reflexivity|discriminate].
Qed.

Lemma location_body_dict (l : list (string * value)) (ev : component) :
  location_body (VDict l) ev =
  match lookup "location" l with
  | Some a =>
      if is_dict a then Ok (ev ++ loc_props (VDict l)) else Raise TypeError
  | None => Ok (ev ++ loc_props (VDict l))
  end.
Proof.
  unfold location_body, loc_props, coordinates, kept_as, kept, add.
  rewrite !path_two; simpl.
  assert (Hskip : forall e : component, (e ++ [])%list = e)
    by (intros; apply app_nil_r).
  destruct (lookup "name" l) as [n|]; simpl;
    [destruct (truthy n); simpl|];
    (destruct (lookup "location" l) as [a|]; simpl;
       [destruct a as [| | | | | | | |ad]; simpl; try reflexivity;
        destruct (lookup "lat" ad) as [lat|]; simpl;
          [destruct (lookup "lon" ad) as [lon|]; simpl|]|];
       rewrite <- ?app_assoc, ?Hskip; reflexivity).
Qed.

Lemma location_body_inv (loc : value) (ev ev' : component) :
  location_body loc ev = Ok ev' -> ev' = ev ++ loc_props loc.
Proof.
  destruct loc as [| | | | | | | |l]; try discriminate.
  rewrite location_body_dict.
  destruct (lookup "location" l) as [a|]; [destruct (is_dict a)|];
    try discriminate; intros H; injection H as <-; reflexivity.
Qed.

Lemma location_body_typed (loc : value) (ev : component) :
  typed_loc loc = true -> location_body loc ev = Ok (ev ++ loc_props loc).
Proof.
  unfold typed_loc; destruct loc as [| | | | | | | |l]; try discriminate.
  rewrite location_body_dict; simpl.
  destruct (lookup "location" l) as [a|]; simpl; [intros ->|]; reflexivity.
Qed.

Lemma format_geo_inv (item : value) (ev ev' : component) :
  format_geo item ev = Ok ev' ->
  ev' = ev ++ flat_map loc_props (elements (field item "location")).
Proof.
  unfold format_geo; intros H.
  apply bind_Ok in H as (locs & Hlocs & H).
  apply get_Ok in Hlocs as [_ ->].
  destruct (field item "location") as [x|] eqn:Hx.
  - destruct (truthy x) eqn:Ht.
    + apply bind_Ok in H as (ls & Hls & H).
      apply getitem_Ok in Hls; rewrite Hx in Hls; injection Hls as <-.
      apply bind_Ok in H as (l & Hl & H).
      unfold elements; rewrite Hl.
      revert H; apply for_each_inv, location_body_inv.
    + rewrite (falsy_elements _ Ht); injection H as <-.
      rewrite app_nil_r; reflexivity.
  - simpl in H; injection H as <-; rewrite app_nil_r; reflexivity.
Qed.

Lemma format_geo_typed (d : list (string * value)) (ev : component) :
  typed_location (VDict d) = true ->
  format_geo (VDict d) ev =
  Ok (ev ++ flat_map loc_props (elements (field (VDict d) "location"))).
Proof.
  unfold typed_location, format_geo; simpl.
  destruct (lookup "location" d) as [x|] eqn:Hx; simpl.
  - destruct x as [| | | | | |l| |]; try discriminate; simpl.
    destruct l as [|y l]; [rewrite app_nil_r; reflexivity|].
    intros H; apply (for_each_app _ _ typed_loc); [|exact H].
    intros loc e; apply location_body_typed.
  - rewrite app_nil_r; reflexivity.
Qed.

(** [# contacts] *)
Lemma contact_body_inv (c : value) (ev ev' : component) :
  contact_body c ev = Ok ev' -> ev' = ev ++ contact_props c.
Proof.
  destruct c as [| | | | | | | |cd]; try discriminate.
  unfold contact_body, contact_props, kept, add; simpl.
  destruct (lookup "public" cd) as [p|]; simpl.
  - destruct (truthy p).
    + destruct (format_contact (VDict cd)); simpl; [|discriminate].
      intros H; injection H as <-; reflexivity.
    + intros H; injection H as <-; rewrite app_nil_r; reflexivity.
  - intros H; injection H as <-; rewrite app_nil_r; reflexivity.
Qed.

Lemma format_contacts_inv (item : value) (ev ev' : component) :
  format_contacts item ev = Ok ev' ->
  ev' = ev ++ flat_map contact_props
                (elements (path item ["event"; "event_contact_info"])).
Proof.
  unfold format_contacts; intros H.
  apply bind_Ok in H as (e & He & H).
  apply bind_Ok in H as (x & Hx & H).
  apply bind_Ok in H as (l & Hl & H).
  rewrite (event_entry_elements item e x VNone "event_contact_info" l He Hx);
    trivial.
  - revert H; apply for_each_inv, contact_body_inv.
  - discriminate.
Qed.

Lemma format_contacts_missing (d : list (string * value)) (ev : component) :
  typed_event (VDict d) = true ->
  path (VDict d) ["event"; "event_contact_info"] = None ->
  format_contacts (VDict d) ev = Raise TypeError.
Proof.
  unfold typed_event, format_contacts; rewrite path_two; simpl.
  destruct (lookup "event" d) as [e|]; simpl; [|reflexivity].
  destruct e as [| | | | | | | |ed]; try discriminate; simpl.
  intros _ ->; reflexivity.
Qed.

(** The parts of a contact *)
Lemma join_parts (n o e : value) :
  text_or_none n = true -> text_or_none o = true -> text_or_none e = true ->
  join ", " (filter truthy [n; o; e])
  = Ok (VStr (join_nonempty [text n; text o; text e])).
Proof.
  destruct n as [| | | |[|a s]| | | |]; try discriminate;
    destruct o as [| | | |[|b t]| | | |]; try discriminate;
    destruct e as [| | | |[|c u]| | | |]; try discriminate;
    intros _ _ _; reflexivity.
Qed.

(** ** The event as a whole *)

Lemma format_event_inv (item : value) (ev : component) :
  format_event item = Ok ev -> ev = event_props item.
Proof.
  unfold format_event, event_props; intros H.
  apply bind_Ok in H as (g & Hg & H); rewrite Hg.
  destruct (typed_event_dict _ (guid_Ok_typed _ _ Hg)) as [d ->].
  apply bind_Ok in H as (e1 & H1 & H).
  apply bind_Ok in H as (e2 & H2 & H).
  apply bind_Ok in H as (e3 & H3 & H).
  apply bind_Ok in H as (e4 & H4 & H).
  apply bind_Ok in H as (e5 & H5 & H).
  apply bind_Ok in H as (e6 & H6 & H).
  apply bind_Ok in H as (e7 & H7 & H).
  apply bind_Ok in H as (e8 & H8 & H).
  injection H as <-.
  apply format_contacts_inv in H8; apply format_links_inv in H7.
  apply format_geo_inv in H6; apply format_attachments_inv in H5.
  apply format_rrule_inv in H4; apply format_dates_inv in H3.
  apply format_categories_inv in H2.
  rewrite format_description_dict in H1.
  unfold present_as at 1; rewrite path_one; simpl field at 1.
  destruct (lookup "name" d) as [n|]; [|discriminate].
  injection H1 as <-; subst.
  unfold Event, add; simpl; rewrite <- !app_assoc; reflexivity.
Qed.

Lemma format_event_required (item : value) (ev : component) :
  format_event item = Ok ev ->
  exists g n s, guid item = Ok g /\ field item "name" = Some n
                /\ path item ["dates"; "start"] = Some s.
Proof.
  unfold format_event; intros H.
  apply bind_Ok in H as (g & Hg & H).
  destruct (typed_event_dict _ (guid_Ok_typed _ _ Hg)) as [d ->].
  apply bind_Ok in H as (e1 & H1 & H).
  apply bind_Ok in H as (e2 & H2 & H).
  apply bind_Ok in H as (e3 & H3 & _).
  rewrite format_description_dict in H1.
  unfold format_dates in H3.
  apply bind_Ok in H3 as (ds & Hds & H3).
  apply bind_Ok in H3 as (s & Hs & _).
  apply get_Ok in Hds as [_ ->]; apply getitem_Ok in Hs.
  rewrite path_two; simpl in *.
  destruct (lookup "name" d) as [n|]; [|discriminate].
  exists g, n, s; repeat split; trivial.
  destruct (lookup "dates" d); [exact Hs|discriminate].
Qed.

(** Where a property of a formatted event comes from. *)
Lemma event_props_in (item : value) (name : string) (v : value) :
  In (name, v) (event_props item) ->
  (name = "uid" /\ guid item = Ok v)
  \/ (name = "dtstamp" /\ v = utcnow)
  \/ (name = "summary" /\ field item "name" = Some v)
  \/ (name = "description" /\ kept "definition_long" item = Some v)
  \/ (name = "comment" /\ kept "ednote" item = Some v)
  \/ (name = "priority" /\ kept "priority" item = Some v)
  \/ (name = "categories" /\
      exists c, In c (elements (field item "calendars")) /\ kept "name" c = Some v)
  \/ (name = "dtstart" /\ path item ["dates"; "start"] = Some v)
  \/ (name = "dtend" /\ kept "end" (dates_of item) = Some v)
  \/ (name = "rrule" /\
      exists r, path item ["event"; "dates"; "recurring_rule"] = Some r
                /\ get_rrule_kwargs r = Ok v)
  \/ (name = "attach" /\
      exists m id, In m (elements (path item ["event"; "files"]))
                   /\ kept "media" m = Some id
                   /\ v = url_for "upload.get_upload" id)
  \/ (name = "location" /\
      exists loc, In loc (elements (field item "location"))
                  /\ kept "name" loc = Some v)
  \/ (name = "geo" /\
      exists loc lat lon, In loc (elements (field item "location"))
                          /\ path loc ["location"; "lat"] = Some lat
                          /\ path loc ["location"; "lon"] = Some lon
                          /\ v = VTuple [lat; lon])
  \/ (name = "url" /\ In v (elements (path item ["event"; "links"])))
  \/ (name = "contact" /\
      exists c p, In c (elements (path item ["event"; "event_contact_info"]))
                  /\ kept "public" c = Some p /\ format_contact c = Ok v).
Proof.
  unfold event_props; intros H.
  repeat (apply in_app_or in H as [H|H]).
  - destruct (guid item) as [g|]; [|destruct H].
    destruct H as [H|[]]; injection H as <- <-; auto.
  - destruct H as [H|[]]; injection H as <- <-; auto.
  - apply in_present_as in H as (x & H & Hx); injection H as -> ->.
    rewrite path_one in Hx; auto 10.
  - apply in_kept_as in H as (x & H & Hx); injection H as -> ->; auto 10.
  - apply in_kept_as in H as (x & H & Hx); injection H as -> ->; auto 10.
  - apply in_kept_as in H as (x & H & Hx); injection H as -> ->; auto 10.
  - apply in_flat_map in H as (c & Hc & H).
    apply in_kept_as in H as (x & H & Hx); injection H as -> ->.
    do 6 right; left; eauto.
  - apply in_present_as in H as (x & H & Hx); injection H as -> ->.
    do 7 right; left; auto.
  - apply in_kept_as in H as (x & H & Hx); injection H as -> ->.
    do 8 right; left; auto.
  - unfold rrule_props in H.
    destruct (path item ["event"; "dates"; "recurring_rule"]) as [r|];
      [|destruct H].
    destruct (get_rrule_kwargs r) as [kw|] eqn:Hkw; [|destruct H].
    destruct H as [H|[]]; injection H as <- <-.
    do 9 right; left; eauto.
  - apply in_flat_map in H as (m & Hm & H).
    unfold attach_props in H.
    destruct (kept "media" m) as [id|] eqn:Hid; [|destruct H].
    destruct H as [H|[]]; injection H as <- <-.
    do 10 right; left; eauto 6.
  - apply in_flat_map in H as (loc & Hloc & H).
    unfold loc_props in H; apply in_app_or in H as [H|H].
    + apply in_kept_as in H as (x & H & Hx); injection H as -> ->.
      do 11 right; left; eauto.
    + destruct (path loc ["location"; "lat"]) as [lat|] eqn:Hlat;
        [|destruct H].
      destruct (path loc ["location"; "lon"]) as [lon|] eqn:Hlon;
        [|destruct H].
      destruct H as [H|[]]; injection H as <- <-.
      do 12 right; left; split; trivial.
      exists loc, lat, lon; auto.
  - apply in_flat_map in H as (l & Hl & H).
    destruct H as [H|[]]; injection H as <- <-.
    do 13 right; left; auto.
  - apply in_flat_map in H as (c & Hc & H).
    unfold contact_props in H.
    destruct (kept "public" c) as [p|] eqn:Hp; [|destruct H].
    destruct (format_contact c) as [s|] eqn:Hs; [|destruct H].
    destruct H as [H|[]]; injection H as <- <-.
    do 14 right; eauto 6.
Qed.

Lemma kept_Some (k : string) (o v : value) :
  kept k o = Some v <-> field o k = Some v /\ truthy v = true.
Proof.
  unfold kept; destruct (field o k) as [x|]; [|split; [|intros []]; discriminate].
  destruct (truthy x) eqn:Hx; split.
  - intros H; injection H as <-; auto.
  - intros [H _]; exact H.
  - discriminate.
  - intros [H Hv]; injection H as ->; congruence.
Qed.

Lemma format_item_Raise (item : value) (e : exn) :
  format_event item = Raise e -> format_item item = Raise e.
Proof. unfold format_item; intros ->; reflexivity. Qed.

Lemma format_item_Ok (item : value) (b : bytes) :
  format_item item = Ok b ->
  exists ev, format_event item = Ok ev /\
             b = to_ical (Calendar [("version", VStr "2.0");
                                    ("prodid", VStr "Newshub")] [ev]).
Proof.
  unfold format_item; intros H.
  apply bind_Ok in H as (ev & Hev & H); injection H as <-.
  exists ev; split; [exact Hev|reflexivity].
Qed.

(** ** Required fields *)

Lemma format_dates_missing_start (d : list (string * value)) (ev : component) :
  path (VDict d) ["dates"; "start"] = None ->
  exists e, format_dates (VDict d) ev = Raise e /\
            (typed_dates (VDict d) = true -> e = KeyError "start").
Proof.
  rewrite path_two; unfold format_dates, typed_dates; simpl.
  destruct (lookup "dates" d) as [ds|]; simpl.
  - destruct ds as [| | | | | | | |dd]; simpl;
      try (intros _; exists TypeError; split; [reflexivity|discriminate]).
    intros ->; exists (KeyError "start"); auto.
  - intros _; exists (KeyError "start"); auto.
Qed.

Lemma format_event_no_name (item : value) :
  field item "name" = None ->
  exists e, format_event item = Raise e /\
            (typed_event item = true -> e = KeyError "name").
Proof.
  intros Hn; unfold format_event.
  destruct (guid item) as [g|e] eqn:Hg.
  - destruct (typed_event_dict _ (guid_Ok_typed _ _ Hg)) as [d ->].
    cbn [bind]; rewrite format_description_dict.
    simpl in Hn; rewrite Hn.
    exists (KeyError "name"); auto.
  - exists e; split; [reflexivity|].
    intros Ht; apply guid_succeeds in Ht as [g Hg']; congruence.
Qed.

Lemma format_event_no_start (item : value) :
  path item ["dates"; "start"] = None ->
  exists e, format_event item = Raise e /\
            (typed_event item = true -> typed_calendars item = true ->
             typed_dates item = true -> field item "name" <> None ->
             e = KeyError "start").
Proof.
  intros Hs; unfold format_event.
  destruct (guid item) as [g|e] eqn:Hg.
  - destruct (typed_event_dict _ (guid_Ok_typed _ _ Hg)) as [d ->].
    cbn [bind]; rewrite format_description_dict.
    simpl field; destruct (lookup "name" d) as [n|].
    + cbn [bind].
      match goal with
      | |- context [format_categories ?i ?e] =>
          destruct (format_categories i e) as [e2|err] eqn:Hc
      end.
      * cbn [bind].
        destruct (format_dates_missing_start d e2 Hs) as (err & -> & Ht).
        exists err; split; [reflexivity|auto].
      * exists err; split; [reflexivity|].
        intros _ Hcal _ _.
        rewrite (format_categories_typed _ _ Hcal) in Hc; discriminate.
    + exists (KeyError "name"); split; [reflexivity|].
      intros _ _ _ Hn; contradiction Hn; reflexivity.
  - exists e; split; [reflexivity|].
    intros Ht; apply guid_succeeds in Ht as [g Hg']; congruence.
Qed.

(** C1. For every record lacking [name] or lacking [dates.start], formatting
    fails and returns no output: [format_event], and hence [format_item],
    raises.  For a record with typed fields the exception is the [KeyError]
    of the missing field: [name] when the summary is set, and, with a [name]
    and with values that the library takes for the properties added before
    the dates, [start] when the start is set. *)
Theorem format_item_requires_name_and_start (item : value)
  (Hmissing : field item "name" = None \/ path item ["dates"; "start"] = None) :
  (exists e, format_event item = Raise e /\ format_item item = Raise e)
  /\ (typed_event item = true -> field item "name" = None ->
      format_event item = Raise (KeyError "name")
      /\ format_item item = Raise (KeyError "name"))
  /\ (typed_event item = true -> typed_calendars item = true ->
      typed_dates item = true -> field item "name" <> None ->
      forallb accepted (head_props item) = true ->
      format_event item = Raise (KeyError "start")
      /\ format_item item = Raise (KeyError "start")).
Proof.
  split; [|split].
  - destruct Hmissing as [H|H];
      [apply format_event_no_name in H|apply format_event_no_start in H];
      destruct H as (e & He & _); exists e; split; trivial;
      apply format_item_Raise, He.
  - intros Ht Hn.
    destruct (format_event_no_name _ Hn) as (e & He & Hk).
    rewrite (Hk Ht) in He; split; [|apply format_item_Raise]; exact He.
  - intros Ht Hc Hd Hn _.
    destruct Hmissing as [H|H]; [contradiction|].
    destruct (format_event_no_start _ H) as (e & He & Hk).
    rewrite (Hk Ht Hc Hd Hn) in He; split; [|apply format_item_Raise]; exact He.
Qed.

(** C2 (as amended). For every record whose [event] entry, when present, is
    a mapping, [guid] returns the record's own [guid] entry if present,
    otherwise the [guid] entry of its [event] if present, otherwise its [_id]
    entry, and [None], without failing, when none of the three exists. *)
Theorem guid_priority (item : value) (Hev : typed_event item = true) :
  guid item =
  Ok (match field item "guid" with
      | Some g => g
      | None =>
          match path item ["event"; "guid"] with
          | Some g => g
          | None => entry item "_id"
          end
      end).
Proof.
  destruct item as [| | | | | | | |d]; try discriminate.
  unfold typed_event in Hev; rewrite path_two.
  unfold guid, entry; simpl in *.
  destruct (lookup "event" d) as [ev|]; simpl.
  - destruct ev as [| | | | | | | |e]; try discriminate; simpl.
    destruct (lookup "guid" d), (lookup "guid" e); reflexivity.
  - destruct (lookup "guid" d); reflexivity.
Qed.

(** C3. For every record whose [event] lacks [event_contact_info],
    [format_event] fails instead of skipping the contacts; when the record
    has its [name] and [dates.start], typed fields and values that the
    library takes for its properties, so that the blocks before it succeed,
    the failure is the [TypeError] raised by the contacts loop. *)
Theorem format_event_contacts_required (item : value)
  (Hnone : path item ["event"; "event_contact_info"] = None) :
  (exists e, format_event item = Raise e /\ format_item item = Raise e)
  /\ (typed_record item = true -> field item "name" <> None ->
      path item ["dates"; "start"] <> None ->
      forallb accepted (event_props item) = true ->
      (forall ev, format_contacts item ev = Raise TypeError)
      /\ format_event item = Raise TypeError
      /\ format_item item = Raise TypeError).
Proof.
  split.
  - destruct (format_event item) as [ev|e] eqn:H.
    + exfalso; unfold format_event in H.
      do 8 (apply bind_Ok in H as (? & _ & H)).
      apply bind_Ok in H as (e8 & H8 & _).
      unfold format_contacts in H8.
      apply bind_Ok in H8 as (sub & Hsub & H8).
      apply bind_Ok in H8 as (cs & Hcs & H8).
      apply bind_Ok in H8 as (l & Hl & _).
      apply get_Ok in Hsub as [_ ->]; apply get_Ok in Hcs as [_ ->].
      rewrite path_two in Hnone.
      destruct (field item "event") as [sub|]; [rewrite Hnone in Hl|];
        discriminate.
    + exists e; split; [reflexivity|apply format_item_Raise, H].
  - unfold typed_record; intros Ht Hn Hs _.
    apply andb_prop in Ht as [Ht Hlinks]; apply andb_prop in Ht as [Ht Hloc].
    apply andb_prop in Ht as [Ht Hfiles]; apply andb_prop in Ht as [Ht Hrec].
    apply andb_prop in Ht as [Ht Hdates]; apply andb_prop in Ht as [Ht Hcal].
    destruct (typed_event_dict _ Ht) as [d ->].
    assert (Hc : forall ev, format_contacts (VDict d) ev = Raise TypeError)
      by (intros ev; apply format_contacts_missing; trivial).
    assert (He : format_event (VDict d) = Raise TypeError).
    { unfold format_event.
      destruct (guid_succeeds _ Ht) as [g ->]; cbn [bind].
      rewrite format_description_dict.
      simpl in Hn; destruct (lookup "name" d) as [n|]; [|contradiction].
      cbn [bind]; rewrite format_categories_typed by trivial; cbn [bind].
      destruct (dates_of (VDict d)) as [| | | | | | | |ds] eqn:Hds;
        try (unfold typed_dates, dates_of in *; simpl in *;
             destruct (lookup "dates" d); subst; discriminate).
      rewrite (format_dates_dict _ _ _ Hds).
      assert (Hstart : lookup "start" ds <> None).
      { rewrite path_two in Hs; unfold dates_of in Hds; simpl in *.
        destruct (lookup "dates" d); [subst; exact Hs|contradiction]. }
      destruct (lookup "start" ds) as [s|]; [|contradiction].
      cbn [bind]; rewrite format_rrule_typed by trivial; cbn [bind].
      rewrite format_attachments_typed by trivial; cbn [bind].
      rewrite format_geo_typed by trivial; cbn [bind].
      rewrite format_links_typed by trivial; cbn [bind].
      rewrite Hc; reflexivity. }
    split; [exact Hc|split; [exact He|apply format_item_Raise, He]].
Qed.

(** ** Optional properties *)

Ltac origin_cases H :=
  first [ destruct H as [[? H]|H]; [try discriminate|origin_cases H]
        | destruct H as [? H]; try discriminate ].

Ltac origin H := apply event_props_in in H; origin_cases H.

Lemma url_in_event_props (item link : value) :
  In link (elements (path item ["event"; "links"])) ->
  In ("url", link) (event_props item).
Proof.
  intros H; unfold event_props.
  do 12 (apply in_or_app; right); apply in_or_app; left.
  apply in_flat_map; exists link; split; [exact H|left; reflexivity].
Qed.

(** C4 (as amended). In every event that [format_event] produces, each of
    description, comment, priority, categories, dtend, attach and location
    comes from a source entry that is present and true (not empty); rrule
    comes from a resolved [event.dates.recurring_rule] whose parameters could
    be built; geo from a location entry with both coordinates; url is
    emitted for exactly the entries of [event.links], whatever their value,
    and contact for a contact whose [public] entry is true, with the joined
    text whatever it is. *)
Theorem optional_properties_sourced (item : value) (ev : component)
  (Hev : format_event item = Ok ev) :
  (forall v, In ("description", v) ev ->
             field item "definition_long" = Some v /\ truthy v = true)
  /\ (forall v, In ("comment", v) ev ->
                field item "ednote" = Some v /\ truthy v = true)
  /\ (forall v, In ("priority", v) ev ->
                field item "priority" = Some v /\ truthy v = true)
  /\ (forall v, In ("categories", v) ev ->
        exists c, In c (elements (field item "calendars"))
                  /\ field c "name" = Some v /\ truthy v = true)
  /\ (forall v, In ("dtend", v) ev ->
                path item ["dates"; "end"] = Some v /\ truthy v = true)
  /\ (forall v, In ("rrule", v) ev ->
        exists r, path item ["event"; "dates"; "recurring_rule"] = Some r
                  /\ get_rrule_kwargs r = Ok v)
  /\ (forall v, In ("attach", v) ev ->
        exists m id, In m (elements (path item ["event"; "files"]))
                     /\ field m "media" = Some id /\ truthy id = true
                     /\ v = url_for "upload.get_upload" id)
  /\ (forall v, In ("location", v) ev ->
        exists loc, In loc (elements (field item "location"))
                    /\ field loc "name" = Some v /\ truthy v = true)
  /\ (forall v, In ("geo", v) ev ->
        exists loc lat lon, In loc (elements (field item "location"))
                            /\ path loc ["location"; "lat"] = Some lat
                            /\ path loc ["location"; "lon"] = Some lon
                            /\ v = VTuple [lat; lon])
  /\ (forall v, In ("url", v) ev <->
                In v (elements (path item ["event"; "links"])))
  /\ (forall v, In ("contact", v) ev ->
        exists c p, In c (elements (path item ["event"; "event_contact_info"]))
                    /\ field c "public" = Some p /\ truthy p = true
                    /\ format_contact c = Ok v).
Proof.
  apply format_event_inv in Hev; subst ev.
  repeat match goal with |- _ /\ _ => split end; intros v;
    [intros H; origin H ..
    |split; intros H; [origin H|apply url_in_event_props, H]
    |intros H; origin H].
  - apply kept_Some in H; apply H.
  - apply kept_Some in H; apply H.
  - apply kept_Some in H; apply H.
  - destruct H as (c & Hc & H); apply kept_Some in H; eauto.
  - apply kept_Some in H as [H Ht]; rewrite path_two; split; [|exact Ht].
    unfold dates_of in H.
    destruct (field item "dates"); [exact H|discriminate].
  - exact H.
  - destruct H as (m & id & Hm & H & ->); apply kept_Some in H as [H Ht].
    exists m, id; auto.
  - destruct H as (c & Hc & H); apply kept_Some in H; eauto.
  - exact H.
  - exact H.
  - destruct H as (c & p & Hc & H & Hv); apply kept_Some in H as [H Ht].
    exists c, p; auto.
Qed.

(** ** Recurrence *)

(** C5 (as amended). For a recurrence mapping with a [frequency],
    [get_rrule_kwargs] returns the parameter [freq], holding the frequency,
    followed by those of [count], [interval] and [until] whose entry is
    present and true (not zero, empty or [None]), each with its value; the
    other parameters are left out. *)
Theorem get_rrule_kwargs_kept (rrule f : value)
  (Hf : field rrule "frequency" = Some f) :
  get_rrule_kwargs rrule =
  Ok (VDict (("freq", f) :: kept_as "count" "count" rrule
               ++ kept_as "interval" "interval" rrule
               ++ kept_as "until" "until" rrule)).
Proof.
  destruct rrule as [| | | | | | | |d]; try discriminate.
  rewrite get_rrule_kwargs_dict; simpl in Hf; rewrite Hf; reflexivity.
Qed.

Lemma missing_key_path (ks : list string) (o : value) :
  missing_key o ks = true -> path o ks = None.
Proof.
  revert o; induction ks as [|k ks IH]; intros o; simpl; [discriminate|].
  destruct o as [| | | | | | | |d]; try discriminate; simpl.
  destruct (lookup k d) as [o'|]; [apply IH|reflexivity].
Qed.

Lemma missing_key_recurring_rule (item : value) :
  missing_key item ["event"; "dates"; "recurring_rule"] = true ->
  exists k, recurring_rule item = Raise (KeyError k).
Proof.
  unfold recurring_rule; simpl.
  destruct item as [| | | | | | | |d]; try discriminate; simpl.
  destruct (lookup "event" d) as [e|]; simpl; [|eauto].
  destruct e as [| | | | | | | |ed]; try discriminate; simpl.
  destruct (lookup "dates" ed) as [ds|]; simpl; [|eauto].
  destruct ds as [| | | | | | | |dd]; try discriminate; simpl.
  destruct (lookup "recurring_rule" dd); [discriminate|eauto].
Qed.

Lemma path_recurring_rule (item r : value) :
  path item ["event"; "dates"; "recurring_rule"] = Some r ->
  recurring_rule item = Ok r.
Proof.
  unfold recurring_rule; rewrite path_three, path_two.
  destruct item as [| | | | | | | |d]; try discriminate; simpl.
  destruct (lookup "event" d) as [e|]; simpl; [|discriminate].
  destruct e as [| | | | | | | |ed]; try discriminate; simpl.
  destruct (lookup "dates" ed) as [ds|]; simpl; [|discriminate].
  destruct ds as [| | | | | | | |dd]; try discriminate; simpl.
  intros ->; reflexivity.
Qed.

(** When the [try] statement adds nothing, the event is the one the other
    blocks build, and it has no rrule. *)
Lemma rrule_skipped (item : value) :
  (forall ev, format_rrule item ev = Ok ev) ->
  format_event item =
  (g <- guid item ;;
   event <- format_description item
              (add (add Event "uid" g) "dtstamp" utcnow) ;;
   event <- format_categories item event ;;
   event <- format_dates item event ;;
   event <- format_attachments item event ;;
   event <- format_geo item event ;;
   event <- format_links item event ;;
   event <- format_contacts item event ;;
   Ok event).
Proof.
  intros Hskip; unfold format_event.
  destruct (guid item) as [g|]; [cbn [bind]|reflexivity].
  destruct (format_description _ _) as [e1|]; [cbn [bind]|reflexivity].
  destruct (format_categories _ _) as [e2|]; [cbn [bind]|reflexivity].
  destruct (format_dates _ _) as [e3|]; [cbn [bind]|reflexivity].
  rewrite Hskip; reflexivity.
Qed.

Lemma no_rrule (item : value) (ev : component) (v : value) :
  rrule_props item = [] -> format_event item = Ok ev -> ~ In ("rrule", v) ev.
Proof.
  intros Hnone Hev H.
  apply format_event_inv in Hev; subst ev; origin H.
  destruct H as (r & Hr & Hkw).
  unfold rrule_props in Hnone; rewrite Hr, Hkw in Hnone; discriminate.
Qed.

(** C6. For every record in which a key along [event.dates.recurring_rule]
    is missing, the [try] statement catches the [KeyError] and leaves the
    event as it is; [format_event] is then what the remaining blocks do, and
    an event it produces has no rrule property. *)
Theorem missing_recurrence_key_skipped (item : value)
  (Hmissing : missing_key item ["event"; "dates"; "recurring_rule"] = true) :
  (forall ev, format_rrule item ev = Ok ev)
  /\ format_event item =
     (g <- guid item ;;
      event <- format_description item
                 (add (add Event "uid" g) "dtstamp" utcnow) ;;
      event <- format_categories item event ;;
      event <- format_dates item event ;;
      event <- format_attachments item event ;;
      event <- format_geo item event ;;
      event <- format_links item event ;;
      event <- format_contacts item event ;;
      Ok event)
  /\ (forall ev v, format_event item = Ok ev -> ~ In ("rrule", v) ev).
Proof.
  assert (Hskip : forall ev, format_rrule item ev = Ok ev).
  { intros ev; unfold format_rrule.
    destruct (missing_key_recurring_rule _ Hmissing) as [k ->]; reflexivity. }
  split; [exact Hskip|split; [apply rrule_skipped, Hskip|]].
  intros ev v; apply no_rrule.
  unfold rrule_props; rewrite (missing_key_path _ _ Hmissing); reflexivity.
Qed.

(** C10. For every record whose [event.dates.recurring_rule] resolves to a
    mapping without [frequency], the [KeyError] raised by [get_rrule_kwargs]
    is caught by the same handler: the event is left as it is,
    [format_event] is what the remaining blocks do, and an event it produces
    has no rrule property. *)
Theorem recurrence_without_frequency_skipped (item rrule : value)
  (Hpath : path item ["event"; "dates"; "recurring_rule"] = Some rrule)
  (Hdict : is_dict rrule = true)
  (Hfreq : field rrule "frequency" = None) :
  get_rrule_kwargs rrule = Raise (KeyError "frequency")
  /\ (forall ev, format_rrule item ev = Ok ev)
  /\ format_event item =
     (g <- guid item ;;
      event <- format_description item
                 (add (add Event "uid" g) "dtstamp" utcnow) ;;
      event <- format_categories item event ;;
      event <- format_dates item event ;;
      event <- format_attachments item event ;;
      event <- format_geo item event ;;
      event <- format_links item event ;;
      event <- format_contacts item event ;;
      Ok event)
  /\ (forall ev v, format_event item = Ok ev -> ~ In ("rrule", v) ev).
Proof.
  assert (Hkw : get_rrule_kwargs rrule = Raise (KeyError "frequency")).
  { destruct rrule as [| | | | | | | |d]; try discriminate.
    rewrite get_rrule_kwargs_dict; simpl in Hfreq; rewrite Hfreq.
    reflexivity. }
  assert (Hskip : forall ev, format_rrule item ev = Ok ev).
  { intros ev; unfold format_rrule.
    rewrite (path_recurring_rule _ _ Hpath); cbn [bind]; rewrite Hkw.
    reflexivity. }
  split; [exact Hkw|split; [exact Hskip|split; [apply rrule_skipped, Hskip|]]].
  intros ev v; apply no_rrule.
  unfold rrule_props; rewrite Hpath, Hkw; reflexivity.
Qed.

(** ** Contacts and locations *)

Lemma format_contact_typed (contact : value) :
  typed_contact contact = true ->
  format_contact contact = Ok (VStr (contact_text contact)).
Proof.
  unfold typed_contact, format_contact, contact_text, entry.
  intros H.
  apply andb_prop in H as [H He]; apply andb_prop in H as [H Ho].
  apply andb_prop in H as [H Hn].
  destruct contact as [| | | | | | | |c]; try discriminate.
  cbn [get bind field] in *; apply join_parts; trivial.
Qed.

Lemma contact_body_typed (contact : value) (ev : component) :
  typed_contact contact = true ->
  contact_body contact ev =
  Ok (ev ++ map (fun c => ("contact", VStr (contact_text c)))
          (filter is_public [contact])).
Proof.
  intros H; unfold contact_body, is_public, entry.
  rewrite (format_contact_typed _ H).
  destruct contact as [| | | | | | | |c]; try discriminate.
  cbn [get bind field filter].
  destruct (lookup "public" c) as [p|]; simpl;
    [destruct (truthy p); simpl|]; rewrite ?app_nil_r; reflexivity.
Qed.

Lemma for_each_contacts (cs : list value) (ev : component) :
  forallb typed_contact cs = true ->
  for_each contact_body cs ev =
  Ok (ev ++ map (fun c => ("contact", VStr (contact_text c)))
          (filter is_public cs)).
Proof.
  revert ev; induction cs as [|c cs IH]; intros ev H; simpl in *.
  - rewrite app_nil_r; reflexivity.
  - apply andb_prop in H as [Hc H].
    rewrite (contact_body_typed _ _ Hc); cbn [bind].
    rewrite (IH _ H), <- app_assoc, <- map_app; simpl filter.
    destruct (is_public c); reflexivity.
Qed.

(** C7. The text of a contact joins its display name, its organisation and
    its email with [", "], leaving out the parts that are empty or absent,
    so that it is empty when all three are; the contacts loop adds one
    contact property, with that text, for each contact whose [public] entry
    is true, and nothing for the others. *)
Theorem public_contacts_joined (item : value) (cs : list value) (ev : component)
  (Hitem : typed_event item = true)
  (Hcs : path item ["event"; "event_contact_info"] = Some (VList cs))
  (Htyped : forallb typed_contact cs = true) :
  (forall c, In c cs -> format_contact c = Ok (VStr (contact_text c)))
  /\ format_contacts item ev =
     Ok (ev ++ map (fun c => ("contact", VStr (contact_text c)))
             (filter is_public cs)).
Proof.
  split.
  - intros c Hc; apply format_contact_typed.
    rewrite forallb_forall in Htyped; auto.
  - destruct (typed_event_dict _ Hitem) as [d ->].
    unfold typed_event in Hitem; rewrite path_two in Hcs.
    unfold format_contacts; simpl in *.
    destruct (lookup "event" d) as [e|]; [|discriminate].
    destruct e as [| | | | | | | |ed]; try discriminate; simpl in *.
    rewrite Hcs; cbn [bind iter]; apply for_each_contacts, Htyped.
Qed.

(** C8. For every location entry (a mapping whose [location], when present,
    is a mapping, with a text for name and floats for coordinates, the
    values the library takes) the name and the coordinates are handled
    independently: a name that is present and not empty gives a location
    property, and a geo property follows exactly when both [location.lat]
    and [location.lon] resolve; a missing coordinate is skipped without
    failing and the name is kept.  The loop of [format_event] does so for
    each entry in turn. *)
Theorem location_name_and_geo_independent (item : value) (ev : component)
  (Hitem : is_dict item = true)
  (Hloc : typed_location item = true)
  (Hacc : forallb accepted
            (flat_map loc_props (elements (field item "location"))) = true) :
  (forall loc e, In loc (elements (field item "location")) ->
     location_body loc e =
     Ok (e ++ kept_as "location" "name" loc
           ++ match path loc ["location"; "lat"],
                    path loc ["location"; "lon"] with
              | Some lat, Some lon => [("geo", VTuple [lat; lon])]
              | _, _ => []
              end))
  /\ format_geo item ev =
     Ok (ev ++ flat_map loc_props (elements (field item "location"))).
Proof.
  destruct item as [| | | | | | | |d]; try discriminate.
  split; [|apply format_geo_typed, Hloc].
  intros loc e Hin; apply location_body_typed.
  unfold typed_location in Hloc.
  apply typed_list_elements in Hloc as [Hall _].
  rewrite forallb_forall in Hall; auto.
Qed.

(** ** The calendar *)

(** C9. Every document that [format_item] returns is the serialization of a
    calendar with the items version ["2.0"] and prodid ["Newshub"] and
    exactly one component, the event of the record; that event has the uid,
    dtstamp, summary and dtstart properties. *)
Theorem format_item_document (item : value) (b : bytes)
  (Hb : format_item item = Ok b) :
  exists ev g n s,
    b = to_ical (Calendar [("version", VStr "2.0"); ("prodid", VStr "Newshub")]
                          [ev])
    /\ format_event item = Ok ev
    /\ guid item = Ok g /\ field item "name" = Some n
    /\ path item ["dates"; "start"] = Some s
    /\ In ("uid", g) ev /\ In ("dtstamp", utcnow) ev
    /\ In ("summary", n) ev /\ In ("dtstart", s) ev.
Proof.
  apply format_item_Ok in Hb as (ev & Hev & ->).
  destruct (format_event_required _ _ Hev) as (g & n & s & Hg & Hn & Hs).
  exists ev, g, n, s; repeat split; trivial;
    apply format_event_inv in Hev; subst ev; unfold event_props.
  - rewrite Hg; left; reflexivity.
  - apply in_or_app; right; left; reflexivity.
  - do 2 (apply in_or_app; right); apply in_or_app; left.
    unfold present_as; rewrite path_one, Hn; left; reflexivity.
  - do 7 (apply in_or_app; right); apply in_or_app; left.
    unfold present_as; rewrite Hs; left; reflexivity.
Qed.

(** ** Identifiers and file names *)

Lemma guid_identifier (item : value) :
  typed_event item = true -> guid item = Ok (identifier item).
Proof.
  destruct item as [| | | | | | | |d]; try discriminate.
  unfold typed_event, identifier; rewrite path_two.
  unfold guid, entry; simpl.
  destruct (lookup "event" d) as [e|]; simpl.
  - destruct e as [| | | | | | | |ed]; try discriminate; simpl.
    destruct (lookup "guid" d), (lookup "guid" ed); reflexivity.
  - destruct (lookup "guid" d); reflexivity.
Qed.

Lemma guid_untyped (item : value) :
  typed_event item = false -> guid item = Raise AttributeError.
Proof.
  destruct item as [| | | | | | | |d]; try reflexivity.
  unfold typed_event, guid; simpl.
  destruct (lookup "event" d) as [e|]; simpl; [|discriminate].
  destruct e; try reflexivity; discriminate.
Qed.

(** [guid] fails exactly on a value that is not a mapping or whose [event]
    entry is present and not a mapping, whether or not the record has a
    [guid] of its own, and the exception is [AttributeError]. *)
Theorem guid_fails_iff (item : value) (e : exn) :
  guid item = Raise e <-> typed_event item = false /\ e = AttributeError.
Proof.
  split.
  - intros H; destruct (typed_event item) eqn:Ht.
    + rewrite (guid_identifier _ Ht) in H; discriminate.
    + rewrite (guid_untyped _ Ht) in H; injection H as <-; auto.
  - intros [Ht ->]; apply guid_untyped, Ht.
Qed.

(** The file name of a record with a typed [event] is the text of its
    identifier followed by [.ical]; without any identifier the identifier is
    [None] and the name is [None.ical]. *)
Theorem format_filename_identifier (repr : value -> string) (item : value)
  (Hev : typed_event item = true)
  (Hid : is_tuple (identifier item) = false) :
  format_filename repr item
  = Ok (py_str repr (identifier item) ++ ".ical")%string.
Proof.
  unfold format_filename; rewrite (guid_identifier _ Hev); cbn [bind].
  destruct (identifier item); try reflexivity; discriminate.
Qed.

(** The file name goes with the uid of the event: when [format_event]
    produces an event, the file name of the record is the text of its uid
    followed by [.ical]. *)
Theorem format_filename_matches_uid (repr : value -> string)
  (item : value) (ev : component) (g : value)
  (Hev : format_event item = Ok ev)
  (Huid : In ("uid", g) ev)
  (Hg : is_tuple g = false) :
  format_filename repr item = Ok (py_str repr g ++ ".ical")%string.
Proof.
  apply format_event_inv in Hev; subst ev; origin Huid.
  unfold format_filename; rewrite Huid; cbn [bind].
  destruct g; try reflexivity; discriminate.
Qed.

(** ** The values of each property, in order *)

Lemma values_named_app (n : string) (a b : component) :
  values_named n (a ++ b) = values_named n a ++ values_named n b.
Proof. unfold values_named; rewrite filter_app, map_app; reflexivity. Qed.

Lemma values_named_one (n name : string) (v : value) :
  values_named n [(name, v)] = if String.eqb name n then [v] else [].
Proof. unfold values_named; simpl; destruct (String.eqb name n); reflexivity. Qed.

Lemma if_nil {A} (b : bool) : (if b then @nil A else []) = [].
Proof. destruct b; reflexivity. Qed.

Lemma values_named_kept_as (n name k : string) (o : value) :
  values_named n (kept_as name k o)
  = if String.eqb name n then opt_values (kept k o) else [].
Proof.
  unfold kept_as; destruct (kept k o); [apply values_named_one|].
  rewrite if_nil; reflexivity.
Qed.

Lemma values_named_present_as (n name : string) (ks : list string) (o : value) :
  values_named n (present_as name ks o)
  = if String.eqb name n then opt_values (path o ks) else [].
Proof.
  unfold present_as; destruct (path o ks); [apply values_named_one|].
  rewrite if_nil; reflexivity.
Qed.

(** A loop whose rounds all add properties of one name. *)
Lemma values_named_flat_map (n name : string)
  (f : value -> list (string * value)) (g : value -> list value) :
  (forall x, values_named n (f x) = if String.eqb name n then g x else []) ->
  forall l, values_named n (flat_map f l)
            = if String.eqb name n then flat_map g l else [].
Proof.
  intros Hf; induction l as [|x l IH]; cbn [flat_map].
  - rewrite if_nil; reflexivity.
  - rewrite values_named_app, Hf, IH.
    destruct (String.eqb name n); reflexivity.
Qed.

Lemma values_named_attach (n : string) (m : value) :
  values_named n (attach_props m)
  = if String.eqb "attach" n
    then map (url_for "upload.get_upload") (opt_values (kept "media" m))
    else [].
Proof.
  unfold attach_props; destruct (kept "media" m); [apply values_named_one|].
  rewrite if_nil; reflexivity.
Qed.

Lemma values_named_contact (n : string) (c : value) :
  values_named n (contact_props c)
  = if String.eqb "contact" n then map snd (contact_props c) else [].
Proof.
  unfold contact_props; destruct (kept "public" c);
    [destruct (format_contact c); [apply values_named_one|]|];
    rewrite if_nil; reflexivity.
Qed.

Lemma values_named_rrule (n : string) (item : value) :
  values_named n (rrule_props item)
  = if String.eqb "rrule" n then map snd (rrule_props item) else [].
Proof.
  unfold rrule_props.
  destruct (path item ["event"; "dates"; "recurring_rule"]) as [r|];
    [destruct (get_rrule_kwargs r); [apply values_named_one|]|];
    rewrite if_nil; reflexivity.
Qed.

Lemma values_named_loc (n : string) (l : list value) :
  values_named n (flat_map loc_props l)
  = if String.eqb "location" n
    then flat_map (fun loc => opt_values (kept "name" loc)) l
    else if String.eqb "geo" n then flat_map geo_values l else [].
Proof.
  assert (Hgeo : forall loc,
             values_named n
               match path loc ["location"; "lat"],
                     path loc ["location"; "lon"] with
               | Some lat, Some lon => [("geo", VTuple [lat; lon])]
               | _, _ => []
               end
             = if String.eqb "geo" n then geo_values loc else []).
  { intros loc; unfold geo_values.
    destruct (path loc ["location"; "lat"]);
      [destruct (path loc ["location"; "lon"]); [apply values_named_one|]|];
      rewrite if_nil; reflexivity. }
  induction l as [|loc l IH]; cbn [flat_map].
  - rewrite !if_nil; reflexivity.
  - unfold loc_props at 1.
    rewrite !values_named_app, values_named_kept_as, Hgeo, IH.
    destruct (String.eqb "location" n) eqn:E.
    + apply String.eqb_eq in E; subst n; simpl; rewrite app_nil_r.
      reflexivity.
    + destruct (String.eqb "geo" n); reflexivity.
Qed.

Lemma values_named_event_props (n : string) (item : value) :
  values_named n (event_props item) =
  (if String.eqb "uid" n
   then match guid item with Ok g => [g] | Raise _ => [] end else [])
  ++ (if String.eqb "dtstamp" n then [utcnow] else [])
  ++ (if String.eqb "summary" n then opt_values (path item ["name"]) else [])
  ++ (if String.eqb "description" n
      then opt_values (kept "definition_long" item) else [])
  ++ (if String.eqb "comment" n then opt_values (kept "ednote" item) else [])
  ++ (if String.eqb "priority" n then opt_values (kept "priority" item) else [])
  ++ (if String.eqb "categories" n
      then flat_map (fun c => opt_values (kept "name" c))
             (elements (field item "calendars"))
      else [])
  ++ (if String.eqb "dtstart" n
      then opt_values (path item ["dates"; "start"]) else [])
  ++ (if String.eqb "dtend" n
      then opt_values (kept "end" (dates_of item)) else [])
  ++ (if String.eqb "rrule" n then map snd (rrule_props item) else [])
  ++ (if String.eqb "attach" n
      then flat_map
             (fun m => map (url_for "upload.get_upload")
                         (opt_values (kept "media" m)))
             (elements (path item ["event"; "files"]))
      else [])
  ++ (if String.eqb "location" n
      then flat_map (fun loc => opt_values (kept "name" loc))
             (elements (field item "location"))
      else if String.eqb "geo" n
           then flat_map geo_values (elements (field item "location"))
           else [])
  ++ (if String.eqb "url" n
      then elements (path item ["event"; "links"]) else [])
  ++ (if String.eqb "contact" n
      then flat_map (fun c => map snd (contact_props c))
             (elements (path item ["event"; "event_contact_info"]))
      else []).
Proof.
  unfold event_props.
  rewrite !values_named_app, !values_named_present_as, !values_named_kept_as.
  rewrite values_named_rrule, values_named_loc, values_named_one.
  rewrite (values_named_flat_map n "categories" _
             (fun c => opt_values (kept "name" c)))
    by (intros; apply values_named_kept_as).
  rewrite (values_named_flat_map n "attach" _ _ (values_named_attach n)).
  rewrite (values_named_flat_map n "contact" _ _ (values_named_contact n)).
  rewrite (values_named_flat_map n "url" link_props (fun l => [l]))
    by (intros; apply values_named_one).
  replace (flat_map (fun l : value => [l])
             (elements (path item ["event"; "links"])))
    with (elements (path item ["event"; "links"]))
    by (induction (elements (path item ["event"; "links"])); simpl; congruence).
  destruct (guid item); [rewrite values_named_one|rewrite if_nil]; reflexivity.
Qed.

(** ** Joining the parts of a contact *)

Lemma strings_of_filter (l : list value) :
  strings_of (filter truthy l)
  = if forallb part_ok l
    then Ok (filter nonempty (map text l))
    else Raise TypeError.
Proof.
  induction l as [|x l IH]; [reflexivity|].
  cbn [filter forallb map].
  destruct (truthy x) eqn:Hx.
  - unfold part_ok at 1; rewrite Hx; cbn [negb orb].
    destruct x as [| | | |s| | | |]; try reflexivity.
    cbn [is_str andb text strings_of].
    rewrite IH; unfold nonempty at 2; simpl in Hx; rewrite Hx.
    destruct (forallb part_ok l); reflexivity.
  - unfold part_ok at 1; rewrite Hx; cbn [negb orb andb].
    rewrite IH.
    replace (nonempty (text x)) with false; [reflexivity|].
    destruct x as [| | | |s| | | |]; try reflexivity.
    simpl in Hx; unfold nonempty; simpl; rewrite Hx; reflexivity.
Qed.

Lemma join_nonempty_filter (ss : list string) :
  join_nonempty (filter nonempty ss) = join_nonempty ss.
Proof.
  induction ss as [|x ss IH]; [reflexivity|].
  cbn [filter]; unfold nonempty at 1.
  destruct (String.eqb x "") eqn:Hx; cbn [negb].
  - simpl; rewrite Hx; exact IH.
  - simpl; rewrite Hx, IH; reflexivity.
Qed.

Lemma join_nonempty_head (x : string) (ss : list string) :
  nonempty x = true -> String.eqb (join_nonempty (x :: ss)) "" = false.
Proof.
  unfold nonempty; destruct x as [|a t]; [discriminate|intros _].
  simpl; destruct (String.eqb (join_nonempty ss) ""); reflexivity.
Qed.

Lemma join_nonempty_concat (ss : list string) :
  forallb nonempty ss = true -> String.concat ", " ss = join_nonempty ss.
Proof.
  induction ss as [|x ss IH]; [reflexivity|].
  cbn [forallb]; intros H.
  destruct (nonempty x) eqn:Hx; [|discriminate].
  cbn [andb] in H.
  destruct ss as [|y ss].
  - unfold nonempty in Hx; simpl.
    destruct (String.eqb x ""); [discriminate|reflexivity].
  - assert (Hy : nonempty y = true)
      by (cbn [forallb] in H; destruct (nonempty y); [reflexivity|discriminate]).
    change (String.concat ", " (x :: y :: ss))
      with (x ++ ", " ++ String.concat ", " (y :: ss))%string.
    rewrite (IH H).
    change (join_nonempty (x :: y :: ss))
      with (if String.eqb x "" then join_nonempty (y :: ss)
            else if String.eqb (join_nonempty (y :: ss)) "" then x
                 else (x ++ ", " ++ join_nonempty (y :: ss))%string).
    rewrite (join_nonempty_head _ _ Hy).
    unfold nonempty in Hx; destruct (String.eqb x "");
      [discriminate|reflexivity].
Qed.

Lemma forallb_filter_self {A} (p : A -> bool) (l : list A) :
  forallb p (filter p l) = true.
Proof.
  induction l as [|x l IH]; [reflexivity|].
  simpl; destruct (p x) eqn:Hx; simpl; rewrite ?Hx; exact IH.
Qed.

(** [', '.join(filter(None, parts))]: the parts that are false are dropped,
    whatever they are; a part that is true has to be text. *)
Lemma join_filter (l : list value) :
  join ", " (filter truthy l)
  = if forallb part_ok l
    then Ok (VStr (join_nonempty (map text l)))
    else Raise TypeError.
Proof.
  unfold join; rewrite strings_of_filter.
  destruct (forallb part_ok l); [|reflexivity].
  rewrite join_nonempty_concat by apply forallb_filter_self.
  rewrite join_nonempty_filter; reflexivity.
Qed.

Lemma format_contact_dict (c : list (string * value)) :
  format_contact (VDict c)
  = if forallb part_ok (contact_parts (VDict c))
    then Ok (VStr (contact_text (VDict c)))
    else Raise TypeError.
Proof.
  unfold format_contact, contact_parts, contact_text, entry.
  cbn [get bind field]; apply join_filter.
Qed.

(** The text of a contact, for every value: a contact that is not a mapping
    raises [AttributeError]; in a mapping the parts that are false (an empty
    text, [None], 0, an empty list) are left out, and a part that is true
    and is not text makes [join] raise [TypeError]. *)
Theorem format_contact_cases (contact : value) :
  format_contact contact
  = if is_dict contact
    then if forallb part_ok (contact_parts contact)
         then Ok (VStr (contact_text contact))
         else Raise TypeError
    else Raise AttributeError.
Proof.
  destruct contact as [| | | | | | | |c]; try reflexivity.
  apply format_contact_dict.
Qed.

Lemma contact_props_ok (c : value) :
  contact_ok c = true ->
  contact_props c
  = if is_public c then [("contact", VStr (contact_text c))] else [].
Proof.
  unfold contact_ok, contact_props, is_public, kept, entry.
  destruct c as [| | | | | | | |cd]; try discriminate.
  rewrite format_contact_dict; cbn [is_dict andb field].
  destruct (lookup "public" cd) as [p|]; [|reflexivity].
  destruct (truthy p); [|reflexivity].
  cbn [negb orb]; intros ->; reflexivity.
Qed.

Lemma contact_body_ok (c : value) (ev : component) :
  contact_ok c = true -> contact_body c ev = Ok (ev ++ contact_props c).
Proof.
  intros H; rewrite (contact_props_ok _ H).
  unfold contact_ok, contact_body, is_public, entry in *.
  destruct c as [| | | | | | | |cd]; try discriminate.
  rewrite format_contact_dict; cbn [is_dict andb field get bind] in *.
  destruct (lookup "public" cd) as [p|]; cbn [truthy];
    [|rewrite app_nil_r; reflexivity].
  destruct (truthy p); [|rewrite app_nil_r; reflexivity].
  cbn [negb orb] in H; rewrite H; reflexivity.
Qed.

Lemma flat_map_contact_props (cs : list value) :
  forallb contact_ok cs = true ->
  flat_map contact_props cs
  = map (fun c => ("contact", VStr (contact_text c))) (filter is_public cs).
Proof.
  induction cs as [|c cs IH]; [reflexivity|].
  cbn [forallb flat_map filter]; intros H.
  destruct (contact_ok c) eqn:Hc; [|discriminate].
  rewrite (contact_props_ok _ Hc), (IH H).
  destruct (is_public c); reflexivity.
Qed.

(** The contacts loop shows the public contacts and does not look at the
    parts of the others: for contacts that are mappings, and whose parts are
    text or false when they are public, it adds one contact property for
    each public contact, in order, and nothing else. *)
Theorem format_contacts_public_only (item : value) (cs : list value)
  (ev : component)
  (Hitem : typed_event item = true)
  (Hcs : path item ["event"; "event_contact_info"] = Some (VList cs))
  (Hok : forallb contact_ok cs = true) :
  format_contacts item ev =
  Ok (ev ++ map (fun c => ("contact", VStr (contact_text c)))
          (filter is_public cs)).
Proof.
  rewrite <- (flat_map_contact_props _ Hok).
  destruct (typed_event_dict _ Hitem) as [d ->].
  unfold typed_event in Hitem; rewrite path_two in Hcs.
  unfold format_contacts; simpl in *.
  destruct (lookup "event" d) as [e|]; [|discriminate].
  destruct e as [| | | | | | | |ed]; try discriminate; simpl in *.
  rewrite Hcs; cbn [bind iter].
  apply (for_each_app _ _ contact_ok); [|exact Hok].
  intros c e; apply contact_body_ok.
Qed.

(** ** What a formatted event holds *)

Lemma values_of_flat_map (f : value -> list (string * value)) (l : list value) :
  map snd (flat_map f l) = flat_map (fun x => map snd (f x)) l.
Proof.
  induction l as [|x l IH]; [reflexivity|].
  simpl; rewrite map_app, IH; reflexivity.
Qed.

(** A formatted event has exactly one uid, one dtstamp, one summary and one
    dtstart: the identifier of the record, the time of the call, the [name]
    and [dates.start]. *)
Theorem mandatory_properties_once (item : value) (ev : component)
  (Hev : format_event item = Ok ev) :
  exists g n s,
    guid item = Ok g /\ field item "name" = Some n
    /\ path item ["dates"; "start"] = Some s
    /\ values_named "uid" ev = [g]
    /\ values_named "dtstamp" ev = [utcnow]
    /\ values_named "summary" ev = [n]
    /\ values_named "dtstart" ev = [s].
Proof.
  destruct (format_event_required _ _ Hev) as (g & n & s & Hg & Hn & Hs).
  apply format_event_inv in Hev; subst ev.
  exists g, n, s; repeat split; trivial;
    rewrite values_named_event_props, ?path_one, Hg, Hn, Hs; reflexivity.
Qed.

(** The optional single properties of a formatted event: each of
    description, comment, priority and dtend occurs once, with the value of
    its entry, when the entry is present and true, and not at all otherwise
    (a priority of 0, an empty description); rrule occurs at most once. *)
Theorem optional_properties_values (item : value) (ev : component)
  (Hev : format_event item = Ok ev) :
  values_named "description" ev = opt_values (kept "definition_long" item)
  /\ values_named "comment" ev = opt_values (kept "ednote" item)
  /\ values_named "priority" ev = opt_values (kept "priority" item)
  /\ values_named "dtend" ev = opt_values (kept "end" (dates_of item))
  /\ values_named "rrule" ev = map snd (rrule_props item)
  /\ length (values_named "rrule" ev) <= 1.
Proof.
  apply format_event_inv in Hev; subst ev.
  rewrite !values_named_event_props.
  repeat split; try (cbn [String.eqb Ascii.eqb Bool.eqb app];
                     rewrite ?app_nil_r; reflexivity).
  cbn [String.eqb Ascii.eqb Bool.eqb app]; rewrite app_nil_r.
  unfold rrule_props.
  destruct (path item ["event"; "dates"; "recurring_rule"]) as [r|];
    [destruct (get_rrule_kwargs r)|]; simpl; auto.
Qed.

(** The repeated properties of a formatted event keep the order of the
    record and its duplicates: the categories are the names, present and not
    empty, of the calendars; the attachments are the URLs of the media,
    present and not empty, of the files; the urls are the links, all of
    them. *)
Theorem repeated_properties_in_order (item : value) (ev : component)
  (Hev : format_event item = Ok ev) :
  values_named "categories" ev
  = flat_map (fun c => opt_values (kept "name" c))
      (elements (field item "calendars"))
  /\ values_named "attach" ev
     = flat_map (fun m => map (url_for "upload.get_upload")
                            (opt_values (kept "media" m)))
         (elements (path item ["event"; "files"]))
  /\ values_named "url" ev = elements (path item ["event"; "links"]).
Proof.
  apply format_event_inv in Hev; subst ev.
  rewrite !values_named_event_props.
  repeat split; cbn [String.eqb Ascii.eqb Bool.eqb app];
    rewrite ?app_nil_r; reflexivity.
Qed.

(** The location and geo properties of a formatted event, each in the order
    of the location entries: the names that are present and not empty, and
    the coordinate pairs of the entries that have both coordinates. *)
Theorem location_properties_in_order (item : value) (ev : component)
  (Hev : format_event item = Ok ev) :
  values_named "location" ev
  = flat_map (fun loc => opt_values (kept "name" loc))
      (elements (field item "location"))
  /\ values_named "geo" ev
     = flat_map geo_values (elements (field item "location")).
Proof.
  apply format_event_inv in Hev; subst ev.
  rewrite !values_named_event_props.
  split; cbn [String.eqb Ascii.eqb Bool.eqb app];
    rewrite ?app_nil_r; reflexivity.
Qed.

(** The contact properties of a formatted event are the texts of the public
    contacts, in order, when the contacts are mappings whose parts, for the
    public ones, are text or false. *)
Theorem contact_properties_in_order (item : value) (ev : component)
  (Hev : format_event item = Ok ev)
  (Hok : contacts_ok item = true) :
  values_named "contact" ev
  = map (fun c => VStr (contact_text c))
      (filter is_public
         (elements (path item ["event"; "event_contact_info"]))).
Proof.
  apply format_event_inv in Hev; subst ev.
  rewrite values_named_event_props.
  cbn [String.eqb Ascii.eqb Bool.eqb app].
  apply typed_list_elements in Hok as [Hall _].
  rewrite <- (values_of_flat_map contact_props).
  rewrite (flat_map_contact_props _ Hall), map_map; reflexivity.
Qed.

(** A formatted event has no property under another name than these
    fifteen. *)
Theorem property_names_closed (item : value) (ev : component)
  (name : string) (v : value)
  (Hev : format_event item = Ok ev)
  (Hin : In (name, v) ev) :
  In name ["uid"; "dtstamp"; "summary"; "description"; "comment"; "priority";
           "categories"; "dtstart"; "dtend"; "rrule"; "attach"; "location";
           "geo"; "url"; "contact"].
Proof.
  apply format_event_inv in Hev; subst ev.
  apply event_props_in in Hin.
  repeat (destruct Hin as [[-> _]|Hin]; [simpl; auto 20|]).
  destruct Hin as [-> _]; simpl; auto 20.
Qed.

(** ** Success and failure of the blocks *)

Lemma format_contacts_ok (d : list (string * value)) (ev : component) :
  typed_event (VDict d) = true -> contacts_ok (VDict d) = true ->
  path (VDict d) ["event"; "event_contact_info"] <> None ->
  format_contacts (VDict d) ev =
  Ok (ev ++ flat_map contact_props
          (elements (path (VDict d) ["event"; "event_contact_info"]))).
Proof.
  unfold typed_event, contacts_ok, format_contacts; rewrite path_two; simpl.
  destruct (lookup "event" d) as [e|]; [|intros _ _ H; contradiction].
  destruct e as [| | | | | | | |ed]; try discriminate; simpl.
  destruct (lookup "event_contact_info" ed) as [x|];
    [|intros _ _ H; contradiction].
  destruct x as [| | | | | |cs| |]; try discriminate; simpl.
  intros _ Hok _; apply (for_each_app _ _ contact_ok); [|exact Hok].
  intros c e; apply contact_body_ok.
Qed.

(** For a record with typed fields, contacts the loop gets through and
    values that the library takes for its properties, the entries [name],
    [dates.start] and [event.event_contact_info] are what [format_event]
    requires: it returns an event exactly when the three are present. *)
Theorem typed_record_formats (item : value)
  (Htyped : typed_record item = true)
  (Hcontacts : contacts_ok item = true)
  (Hacc : forallb accepted (event_props item) = true) :
  (exists ev, format_event item = Ok ev)
  <-> (field item "name" <> None /\ path item ["dates"; "start"] <> None
       /\ path item ["event"; "event_contact_info"] <> None).
Proof.
  split.
  - intros [ev Hev].
    destruct (format_event_required _ _ Hev) as (g & n & s & _ & -> & ->).
    repeat split; try discriminate.
    intros Hnone; unfold format_event in Hev.
    do 8 (apply bind_Ok in Hev as (? & _ & Hev)).
    apply bind_Ok in Hev as (e8 & H8 & _).
    unfold format_contacts in H8.
    apply bind_Ok in H8 as (sub & Hsub & H8).
    apply bind_Ok in H8 as (cs & Hcs & H8).
    apply bind_Ok in H8 as (l & Hl & _).
    apply get_Ok in Hsub as [_ ->]; apply get_Ok in Hcs as [_ ->].
    rewrite path_two in Hnone.
    destruct (field item "event") as [sub|]; [rewrite Hnone in Hl|];
      discriminate.
  - intros (Hn & Hs & Hci).
    unfold typed_record in Htyped.
    apply andb_prop in Htyped as [Ht Hlinks].
    apply andb_prop in Ht as [Ht Hloc]; apply andb_prop in Ht as [Ht Hfiles].
    apply andb_prop in Ht as [Ht Hrec]; apply andb_prop in Ht as [Ht Hdates].
    apply andb_prop in Ht as [Ht Hcal].
    destruct (typed_event_dict _ Ht) as [d ->].
    unfold format_event.
    destruct (guid_succeeds _ Ht) as [g ->]; cbn [bind].
    rewrite format_description_dict.
    simpl in Hn; destruct (lookup "name" d) as [n|]; [|contradiction].
    cbn [bind]; rewrite format_categories_typed by trivial; cbn [bind].
    destruct (dates_of (VDict d)) as [| | | | | | | |ds] eqn:Hds;
      try (unfold typed_dates, dates_of in *; simpl in *;
           destruct (lookup "dates" d); subst; discriminate).
    rewrite (format_dates_dict _ _ _ Hds).
    assert (Hstart : lookup "start" ds <> None).
    { rewrite path_two in Hs; unfold dates_of in Hds; simpl in *.
      destruct (lookup "dates" d); [subst; exact Hs|contradiction]. }
    destruct (lookup "start" ds) as [s|]; [|contradiction].
    cbn [bind]; rewrite format_rrule_typed by trivial; cbn [bind].
    rewrite format_attachments_typed by trivial; cbn [bind].
    rewrite format_geo_typed by trivial; cbn [bind].
    rewrite format_links_typed by trivial; cbn [bind].
    rewrite format_contacts_ok by trivial; cbn [bind].
    eexists; reflexivity.
Qed.

(** The [try] statement of the recurrence, for every record: when a value
    on the way to [event.dates.recurring_rule], or the rule itself, is not a
    mapping, the [TypeError] is not caught; otherwise the statement succeeds,
    with the rrule of the record or, when a key or the frequency is missing,
    without adding anything. *)
Theorem format_rrule_cases (item : value) (ev : component) :
  format_rrule item ev =
  if blocked item ["event"; "dates"; "recurring_rule"]
  then Raise TypeError
  else Ok (ev ++ rrule_props item).
Proof.
  unfold format_rrule, recurring_rule, rrule_props.
  rewrite path_three, path_two.
  destruct item as [| | | | | | | |d]; try reflexivity; simpl.
  destruct (lookup "event" d) as [e|]; simpl;
    [|rewrite app_nil_r; reflexivity].
  destruct e as [| | | | | | | |ed]; try reflexivity; simpl.
  destruct (lookup "dates" ed) as [ds|]; simpl;
    [|rewrite app_nil_r; reflexivity].
  destruct ds as [| | | | | | | |dd]; try reflexivity; simpl.
  destruct (lookup "recurring_rule" dd) as [r|]; simpl;
    [|rewrite app_nil_r; reflexivity].
  destruct r as [| | | | | | | |rd]; try reflexivity.
  rewrite get_rrule_kwargs_dict.
  destruct (lookup "frequency" rd); simpl; rewrite ?app_nil_r; reflexivity.
Qed.

(** One round of the locations loop, for every entry whose name and
    coordinates, where it has them, are values the library takes (a text,
    floats): an entry that is not a mapping raises [AttributeError]; an
    entry whose [location] is present and not a mapping raises [TypeError],
    which the handler does not catch; any other entry adds its name and its
    coordinates. *)
Theorem location_body_cases (loc : value) (ev : component)
  (Hacc : forallb accepted (loc_props loc) = true) :
  location_body loc ev =
  if is_dict loc
  then if opt_mapping (field loc "location")
       then Ok (ev ++ loc_props loc)
       else Raise TypeError
  else Raise AttributeError.
Proof.
  destruct loc as [| | | | | | | |l]; try reflexivity.
  rewrite location_body_dict; simpl.
  destruct (lookup "location" l) as [a|]; reflexivity.
Qed.

(** An entry that is present with a wrong value is not an absent entry: with
    a [calendars] that cannot be iterated, or a [dates] that is not a
    mapping ([None], say), formatting a record that has its [name], and
    values that the library takes for the properties added before, raises
    [TypeError], where the absent entry would be an empty list, or would give
    the [KeyError] of [start]; a [location] that is false, of whatever type,
    is skipped. *)
Theorem present_is_not_absent (d : list (string * value))
  (Hev : typed_event (VDict d) = true)
  (Hname : lookup "name" d <> None)
  (Hacc : forallb accepted (head_props (VDict d)) = true) :
  (forall x, lookup "calendars" d = Some x -> iter x = Raise TypeError ->
             format_event (VDict d) = Raise TypeError)
  /\ (forall x, typed_calendars (VDict d) = true ->
                lookup "dates" d = Some x -> is_dict x = false ->
                format_event (VDict d) = Raise TypeError)
  /\ (forall ev, truthy (entry (VDict d) "location") = false ->
                 format_geo (VDict d) ev = Ok ev).
Proof.
  assert (Hhead : forall k : component -> result component,
             (g <- guid (VDict d) ;;
              event <- format_description (VDict d)
                         (add (add Event "uid" g) "dtstamp" utcnow) ;;
              k event)
             = Raise TypeError
             \/ exists e, (g <- guid (VDict d) ;;
                           event <- format_description (VDict d)
                                      (add (add Event "uid" g) "dtstamp" utcnow) ;;
                           k event) = k e).
  { intros k; destruct (guid_succeeds _ Hev) as [g ->]; cbn [bind].
    rewrite format_description_dict.
    destruct (lookup "name" d) as [n|]; [|contradiction].
    right; eexists; reflexivity. }
  split; [|split].
  - intros x Hx Hit; unfold format_event.
    destruct (Hhead (fun event =>
                event <- format_categories (VDict d) event ;;
                event <- format_dates (VDict d) event ;;
                event <- format_rrule (VDict d) event ;;
                event <- format_attachments (VDict d) event ;;
                event <- format_geo (VDict d) event ;;
                event <- format_links (VDict d) event ;;
                event <- format_contacts (VDict d) event ;;
                Ok event)) as [H|[e H]]; [exact H|].
    rewrite H; unfold format_categories; simpl; rewrite Hx; simpl.
    rewrite Hit; reflexivity.
  - intros x Hcal Hx Hnd; unfold format_event.
    destruct (Hhead (fun event =>
                event <- format_categories (VDict d) event ;;
                event <- format_dates (VDict d) event ;;
                event <- format_rrule (VDict d) event ;;
                event <- format_attachments (VDict d) event ;;
                event <- format_geo (VDict d) event ;;
                event <- format_links (VDict d) event ;;
                event <- format_contacts (VDict d) event ;;
                Ok event)) as [H|[e H]]; [exact H|].
    rewrite H, format_categories_typed by trivial; cbn [bind].
    unfold format_dates; simpl; rewrite Hx; simpl.
    destruct x; try reflexivity; discriminate.
  - intros ev; unfold entry, format_geo; simpl.
    destruct (lookup "location" d) as [x|]; simpl; [|reflexivity].
    intros ->; reflexivity.
Qed.

(** [get_rrule_kwargs] reads the four entries [frequency], [count],
    [interval] and [until] and nothing else: two mappings that agree on them
    give the same result, whatever their other entries. *)
Theorem get_rrule_kwargs_reads_four (d d' : list (string * value))
  (Hsame : forall k, In k ["frequency"; "count"; "interval"; "until"] ->
                     lookup k d = lookup k d') :
  get_rrule_kwargs (VDict d) = get_rrule_kwargs (VDict d').
Proof.
  rewrite !get_rrule_kwargs_dict; unfold kept_as, kept; simpl.
  rewrite <- (Hsame "frequency"), <- (Hsame "count"), <- (Hsame "interval"),
    <- (Hsame "until") by (simpl; auto 6).
  reflexivity.
Qed.

(** [get_rrule_kwargs] fails in two ways only: with [TypeError] on a value
    that is not a mapping, and with the [KeyError] of [frequency] on a
    mapping without it. *)
Theorem get_rrule_kwargs_fails_iff (rrule : value) (e : exn) :
  get_rrule_kwargs rrule = Raise e <->
  (is_dict rrule = false /\ e = TypeError)
  \/ (is_dict rrule = true /\ field rrule "frequency" = None
      /\ e = KeyError "frequency").
Proof.
  destruct rrule as [| | | | | | | |d];
    try (split; [intros H; injection H as <-; auto
                |intros [[_ ->]|[H _]]; [reflexivity|discriminate]]).
  rewrite get_rrule_kwargs_dict; simpl.
  destruct (lookup "frequency" d) as [f|]; split.
  - discriminate.
  - intros [[H _]|(_ & H & _)]; discriminate.
  - intros H; injection H as <-; auto.
  - intros [[H _]|(_ & _ & ->)]; [discriminate|reflexivity].
Qed.

End Formatter.

(** ** The properties on the sample records *)

Abbreviation stub_format_event :=
  (format_event stub_now stub_url_for stub_contact_name stub_contact_email).
Abbreviation stub_format_item :=
  (format_item stub_now stub_url_for stub_contact_name stub_contact_email
     calendar stub_to_ical).

Lemma format_item_requires_name_and_start_witness :
  stub_format_item
    (VDict [("guid", VStr "abc123");
            ("dates", VDict [("start", VDatetime 1500003600)])])
  = Raise (KeyError "name")
  /\ stub_format_item
       (VDict [("guid", VStr "abc123"); ("name", VStr "Conference");
               ("priority", VInt 3)])
     = Raise (KeyError "start").
Proof.
  split.
  - apply (format_item_requires_name_and_start
             stub_now stub_url_for stub_contact_name stub_contact_email
             calendar stub_to_ical
             (VDict [("guid", VStr "abc123");
                     ("dates", VDict [("start", VDatetime 1500003600)])])
             (or_introl eq_refl)); reflexivity.
  - apply (format_item_requires_name_and_start
             stub_now stub_url_for stub_contact_name stub_contact_email
             calendar stub_to_ical
             (VDict [("guid", VStr "abc123"); ("name", VStr "Conference");
                     ("priority", VInt 3)])
             (or_intror eq_refl)); try reflexivity; discriminate.
Defined.

Lemma guid_priority_witness :
  guid (VDict [("event", VDict [("guid", VStr "e1")]); ("_id", VStr "a1")])
  = Ok (VStr "e1").
Proof.
  apply (guid_priority
           (VDict [("event", VDict [("guid", VStr "e1")]); ("_id", VStr "a1")])).
  reflexivity.
Defined.

(** A record without any identifier: [guid] returns [None]. *)
Lemma guid_no_identifier :
  guid (VDict [("name", VStr "Conference")]) = Ok VNone.
Proof. reflexivity. Qed.

Lemma format_event_contacts_required_witness :
  stub_format_event
    (VDict [("name", VStr "Conference");
            ("dates", VDict [("start", VDatetime 1500003600)]);
            ("event", VDict [("links", VList [])])])
  = Raise TypeError.
Proof.
  apply (format_event_contacts_required
           stub_now stub_url_for stub_contact_name stub_contact_email
           calendar stub_to_ical
           (VDict [("name", VStr "Conference");
                   ("dates", VDict [("start", VDatetime 1500003600)]);
                   ("event", VDict [("links", VList [])])])
           eq_refl); try reflexivity; discriminate.
Defined.

Lemma optional_properties_sourced_witness :
  exists ev,
    stub_format_event conference = Ok ev
    /\ (forall v, In ("url", v) ev <->
                  In v (elements (path conference ["event"; "links"]))).
Proof.
  eexists; split; [reflexivity|].
  apply (optional_properties_sourced
           stub_now stub_url_for stub_contact_name stub_contact_email
           conference _ eq_refl).
Defined.

(** An empty link gives a url property and a public contact without name,
    organisation and email gives a contact property. *)
Lemma empty_url_and_contact_emitted :
  stub_format_event bare
  = Ok [("uid", VStr "abc124"); ("dtstamp", stub_now);
        ("summary", VStr "Briefing"); ("dtstart", VDatetime 1500003600);
        ("url", VStr ""); ("contact", VStr "")].
Proof. reflexivity. Qed.

Lemma get_rrule_kwargs_kept_witness :
  get_rrule_kwargs daily5
  = Ok (VDict [("freq", VStr "DAILY"); ("count", VInt 5)]).
Proof.
  apply (get_rrule_kwargs_kept daily5 (VStr "DAILY")); reflexivity.
Defined.

(** A [count] that is present, with the value 0, is left out. *)
Lemma get_rrule_kwargs_zero_count :
  get_rrule_kwargs (VDict [("frequency", VStr "DAILY"); ("count", VInt 0)])
  = Ok (VDict [("freq", VStr "DAILY")]).
Proof. reflexivity. Qed.

Lemma missing_recurrence_key_skipped_witness :
  format_rrule
    (VDict [("name", VStr "Conference"); ("event", VDict [("dates", VDict [])])])
    [("uid", VNone)]
  = Ok [("uid", VNone)].
Proof.
  apply (missing_recurrence_key_skipped
           stub_now stub_url_for stub_contact_name stub_contact_email
           (VDict [("name", VStr "Conference");
                   ("event", VDict [("dates", VDict [])])])).
  reflexivity.
Defined.

Lemma public_contacts_joined_witness :
  format_contacts stub_contact_name stub_contact_email conference []
  = Ok [("contact", VStr "Jane Doe, jane@x.com")].
Proof.
  apply (public_contacts_joined
           stub_contact_name stub_contact_email conference [jane; desk] []);
    reflexivity.
Defined.

Lemma location_name_and_geo_independent_witness :
  format_geo conference [] = Ok [("location", VStr "HQ")].
Proof.
  apply (location_name_and_geo_independent conference []); reflexivity.
Defined.

Lemma format_item_document_witness :
  exists ev g n s,
    stub_format_item conference
    = Ok (Calendar [("version", VStr "2.0"); ("prodid", VStr "Newshub")] [ev])
    /\ In ("uid", g) ev /\ In ("dtstamp", stub_now) ev
    /\ In ("summary", n) ev /\ In ("dtstart", s) ev.
Proof.
  destruct (format_item_document
              stub_now stub_url_for stub_contact_name stub_contact_email
              calendar stub_to_ical conference _ eq_refl)
    as (ev & g & n & s & _ & Hev & _ & _ & _ & Hu & Ht & Hn & Hs).
  exists ev, g, n, s; repeat split; trivial.
  unfold format_item; rewrite Hev; reflexivity.
Defined.

Lemma recurrence_without_frequency_skipped_witness :
  format_rrule
    (VDict [("event",
             VDict [("dates",
                     VDict [("recurring_rule", VDict [("count", VInt 5)])])])])
    [("uid", VNone)]
  = Ok [("uid", VNone)].
Proof.
  apply (recurrence_without_frequency_skipped
           stub_now stub_url_for stub_contact_name stub_contact_email
           (VDict [("event",
                    VDict [("dates",
                            VDict [("recurring_rule",
                                    VDict [("count", VInt 5)])])])])
           (VDict [("count", VInt 5)])); reflexivity.
Defined.

(** ** The further properties on the sample records *)

Lemma format_filename_identifier_witness :
  format_filename stub_repr (VDict [("name", VStr "Conference")])
  = Ok "None.ical"
  /\ format_filename stub_repr conference = Ok "abc123.ical".
Proof.
  split.
  - apply (format_filename_identifier stub_repr
             (VDict [("name", VStr "Conference")])); reflexivity.
  - apply (format_filename_identifier stub_repr conference); reflexivity.
Defined.

Lemma format_filename_matches_uid_witness :
  format_filename stub_repr bare = Ok "abc124.ical".
Proof.
  apply (format_filename_matches_uid
           stub_now stub_url_for stub_contact_name stub_contact_email
           stub_repr bare _ (VStr "abc124") eq_refl (or_introl eq_refl)).
  reflexivity.
Defined.

Lemma mandatory_properties_once_witness :
  exists g n s,
    guid conference = Ok g /\ field conference "name" = Some n
    /\ path conference ["dates"; "start"] = Some s
    /\ values_named "uid" conference_event = [g]
    /\ values_named "dtstamp" conference_event = [stub_now]
    /\ values_named "summary" conference_event = [n]
    /\ values_named "dtstart" conference_event = [s].
Proof.
  apply (mandatory_properties_once
           stub_now stub_url_for stub_contact_name stub_contact_email
           conference conference_event).
  reflexivity.
Defined.

Lemma optional_properties_values_witness :
  values_named "description" quiet_event = []
  /\ values_named "comment" quiet_event = [VStr "call first"]
  /\ values_named "priority" quiet_event = []
  /\ values_named "dtend" quiet_event = [VDatetime 1500007200]
  /\ values_named "rrule" quiet_event = []
  /\ length (values_named "rrule" quiet_event) <= 1.
Proof.
  apply (optional_properties_values
           stub_now stub_url_for stub_contact_name stub_contact_email
           quiet quiet_event).
  reflexivity.
Defined.

Lemma repeated_properties_in_order_witness :
  values_named "categories" conference_event = [VStr "Sport"]
  /\ values_named "attach" conference_event = []
  /\ values_named "url" conference_event = [VStr "https://example.com/"].
Proof.
  apply (repeated_properties_in_order
           stub_now stub_url_for stub_contact_name stub_contact_email
           conference conference_event).
  reflexivity.
Defined.

Lemma location_properties_in_order_witness :
  values_named "location" conference_event = [VStr "HQ"]
  /\ values_named "geo" conference_event = [].
Proof.
  apply (location_properties_in_order
           stub_now stub_url_for stub_contact_name stub_contact_email
           conference conference_event).
  reflexivity.
Defined.

Lemma contact_properties_in_order_witness :
  values_named "contact" conference_event = [VStr "Jane Doe, jane@x.com"].
Proof.
  apply (contact_properties_in_order
           stub_now stub_url_for stub_contact_name stub_contact_email
           conference conference_event); reflexivity.
Defined.

Lemma property_names_closed_witness :
  In "rrule"
     ["uid"; "dtstamp"; "summary"; "description"; "comment"; "priority";
      "categories"; "dtstart"; "dtend"; "rrule"; "attach"; "location";
      "geo"; "url"; "contact"].
Proof.
  apply (property_names_closed
           stub_now stub_url_for stub_contact_name stub_contact_email
           conference conference_event "rrule"
           (VDict [("freq", VStr "DAILY"); ("count", VInt 5)]) eq_refl).
  do 5 right; left; reflexivity.
Defined.

Lemma typed_record_formats_witness :
  exists ev, stub_format_event conference = Ok ev.
Proof.
  apply (typed_record_formats
           stub_now stub_url_for stub_contact_name stub_contact_email
           conference eq_refl eq_refl eq_refl).
  repeat split; discriminate.
Defined.

Lemma location_body_cases_witness :
  location_body hq [("summary", VStr "Conference")]
  = Ok [("summary", VStr "Conference"); ("location", VStr "HQ")].
Proof.
  apply (location_body_cases hq [("summary", VStr "Conference")]).
  reflexivity.
Defined.

Lemma present_is_not_absent_witness :
  stub_format_event
    (VDict [("name", VStr "Conference"); ("calendars", VNone);
            ("dates", VDict [("start", VDatetime 1500003600)])])
  = Raise TypeError.
Proof.
  assert (Hname : lookup "name"
                    [("name", VStr "Conference"); ("calendars", VNone);
                     ("dates", VDict [("start", VDatetime 1500003600)])]
                  <> None) by discriminate.
  destruct (present_is_not_absent
              stub_now stub_url_for stub_contact_name stub_contact_email
              [("name", VStr "Conference"); ("calendars", VNone);
               ("dates", VDict [("start", VDatetime 1500003600)])]
              eq_refl Hname eq_refl) as [H _].
  apply (H VNone); reflexivity.
Defined.

Lemma get_rrule_kwargs_reads_four_witness :
  get_rrule_kwargs (VDict [("frequency", VStr "WEEKLY"); ("interval", VInt 2)])
  = get_rrule_kwargs
      (VDict [("byday", VStr "MO WE"); ("frequency", VStr "WEEKLY");
              ("endRepeatMode", VStr "count"); ("interval", VInt 2)]).
Proof.
  apply (get_rrule_kwargs_reads_four
           [("frequency", VStr "WEEKLY"); ("interval", VInt 2)]
           [("byday", VStr "MO WE"); ("frequency", VStr "WEEKLY");
            ("endRepeatMode", VStr "count"); ("interval", VInt 2)]).
  intros k [<-|[<-|[<-|[<-|[]]]]]; reflexivity.
Defined.

Lemma format_contacts_public_only_witness :
  format_contacts stub_contact_name stub_contact_email sources []
  = Ok [("contact", VStr "Jane Doe, jane@x.com")].
Proof.
  apply (format_contacts_public_only
           stub_contact_name stub_contact_email sources [odd; jane] []);
    reflexivity.
Defined.
